(** * notes-app: the overlay note widget (src/App.tsx)

    A shallow embedding of the React component [App] and of the
    browser facilities it relies on (the timer queue behind
    [setTimeout]/[clearTimeout], the promise returned by [invoke]).

    The source file holds three revisions of the component.  Two of them
    persist the note from an effect keyed on [noteContent]
    (module [AutoSave]); one wraps [saveNote] in the [debounce] utility
    defined at the end of the component (module [Debounce]).

    The commands behind [invoke] ([load_note], [save_note],
    [force_window_on_top], [debug_window_info]) and the global hotkey
    live in the native shell, which is not part of the sources: they are
    modelled from the specification (modules [NoteStore] and [Window]). *)

From Stdlib Require Import String Ascii List Arith Bool Lia Permutation.
Import ListNotations.
Local Open Scope string_scope.
Local Open Scope list_scope.

Set Implicit Arguments.

(** ** Errors and promise outcomes *)

(** The error taxonomy of the native side (spec, section 7). *)
Inductive BackendError : Type :=
| StorageUnavailable
| WriteFailed
| WindowManagerError.

(** What the promise returned by [invoke] settles to. *)
Inductive Reply (A : Type) : Type :=
| Resolved (a : A)
| Rejected (e : BackendError).

Arguments Resolved {A} a.
Arguments Rejected {A} e.

(** ** The note store (native side) *)

Module NoteStore.

(** Modelled from the spec: the durable single-slot store behind
    [load_note]/[save_note] (the native command handlers are missing).
    [slot = None] is the first run, before anything was stored;
    [medium_ok] tells whether the backing medium can be accessed. *)
Record t : Type := mk { slot : option string; medium_ok : bool }.

(** Modelled from the spec: the bytes held by the store (none before the
    first save). *)
Definition stored_bytes (s : t) : string :=
  match slot s with Some c => c | None => "" end.

(** Modelled from the spec: [load() -> NoteContent], failing with
    StorageUnavailable when the medium cannot be read, and returning the
    empty note on first run. *)
Definition load (s : t) : Reply string :=
  if medium_ok s then Resolved (stored_bytes s)
  else Rejected StorageUnavailable.

(** Modelled from the spec: [save(NoteContent) -> Result]; each write
    fully replaces the prior value, a failed write leaves it alone. *)
Definition save (content : string) (s : t) : Reply unit * t :=
  if medium_ok s
  then (Resolved tt, mk (Some content) (medium_ok s))
  else (Rejected StorageUnavailable, s).

Definition first_run : t := mk None true.

End NoteStore.

(** ** The window visibility controller (native side) *)

Module Window.

(** Modelled from the spec: the three visibility states of section 4.3
    (the controller is part of the native shell, missing here). *)
Inductive WindowVisibilityState : Type :=
| Hidden
| Visible
| VisibleForcedOnTop.

(** Modelled from the spec: [Hidden -> Visible],
    [Visible|VisibleForcedOnTop -> Hidden]. *)
Definition toggleHotkey (s : WindowVisibilityState) : WindowVisibilityState :=
  match s with
  | Hidden => Visible
  | Visible | VisibleForcedOnTop => Hidden
  end.

(** Modelled from the spec: [Visible -> VisibleForcedOnTop], idempotent
    when already forced; the spec lists no transition out of [Hidden]. *)
Definition forceOnTop (s : WindowVisibilityState) : WindowVisibilityState :=
  match s with
  | Hidden => Hidden
  | Visible | VisibleForcedOnTop => VisibleForcedOnTop
  end.

(** Modelled from the spec: the documented initial state. *)
Definition initial : WindowVisibilityState := Hidden.

End Window.

Import Window.

(** ** The environment of the component *)

(** Commands crossing the [invoke] boundary, and the window-manager call
    of [handleDragStart]. *)
Inductive Command : Type :=
| load_note
| save_note (content : string)
| force_window_on_top
| debug_window_info
| startDragging.

(** [console.error(msg, error)] and [console.log(msg, ...args)]. *)
Inductive ConsoleEntry : Type :=
| console_error (msg : string) (e : BackendError)
| console_log (msg : string) (args : list string).

(** The line feed of the string literals of the source. *)
Definition LF : string := String "010"%char EmptyString.

(** Everything outside the component: the clock (ms), the native side,
    and the traces the component leaves (commands invoked with the time of
    the call, console lines, alerts). *)
Record Env : Type := mkEnv {
  now : nat;
  store : NoteStore.t;
  window : WindowVisibilityState;
  wm_ok : bool;            (* does the window manager accept requests *)
  wm_info : string;        (* what it reports about the window *)
  ipc : list (nat * Command);
  console : list ConsoleEntry;
  alerts : list string
}.

Definition set_now (t : nat) (e : Env) : Env :=
  mkEnv t (store e) (window e) (wm_ok e) (wm_info e) (ipc e) (console e) (alerts e).

Definition set_store (s : NoteStore.t) (e : Env) : Env :=
  mkEnv (now e) s (window e) (wm_ok e) (wm_info e) (ipc e) (console e) (alerts e).

Definition set_window (v : WindowVisibilityState) (e : Env) : Env :=
  mkEnv (now e) (store e) v (wm_ok e) (wm_info e) (ipc e) (console e) (alerts e).

Definition record_call (c : Command) (e : Env) : Env :=
  mkEnv (now e) (store e) (window e) (wm_ok e) (wm_info e)
        ((now e, c) :: ipc e) (console e) (alerts e).

Definition print (l : ConsoleEntry) (e : Env) : Env :=
  mkEnv (now e) (store e) (window e) (wm_ok e) (wm_info e)
        (ipc e) (l :: console e) (alerts e).

Definition show_alert (m : string) (e : Env) : Env :=
  mkEnv (now e) (store e) (window e) (wm_ok e) (wm_info e)
        (ipc e) (console e) (m :: alerts e).

(** The contents handed to [save_note], newest first. *)
Fixpoint saves (l : list (nat * Command)) : list (nat * string) :=
  match l with
  | [] => []
  | (t, save_note c) :: l' => (t, c) :: saves l'
  | _ :: l' => saves l'
  end.

(** ** Asynchronous functions: a state-and-exception monad

    The body of an [async] function either completes or throws; [await]
    on a rejected promise throws.  [Js S A] threads the state [S] the
    function can reach and the outcome. *)
Definition Js (S A : Type) : Type := S -> S * Reply A.

Definition ret {S A} (a : A) : Js S A := fun s => (s, Resolved a).

Definition bind {S A B} (m : Js S A) (k : A -> Js S B) : Js S B :=
  fun s => match m s with
           | (s', Resolved a) => k a s'
           | (s', Rejected err) => (s', Rejected err)
           end.

(** [await p] for a promise that settled to [r]. *)
Definition await {S A} (r : Reply A) : Js S A := fun s => (s, r).

(** [try { body } catch (error) { handler }] *)
Definition try_catch {S A} (body : Js S A) (handler : BackendError -> Js S A) : Js S A :=
  fun s => match body s with
           | (s', Resolved a) => (s', Resolved a)
           | (s', Rejected err) => handler err s'
           end.

(** [try { body } finally { fin }], for a [fin] that cannot throw. *)
Definition finally {S A} (body : Js S A) (fin : S -> S) : Js S A :=
  fun s => let (s', r) := body s in (fin s', r).

(** A statement that cannot throw. *)
Definition effect {S} (f : S -> S) : Js S unit := fun s => (f s, Resolved tt).

Declare Scope js_scope.
Delimit Scope js_scope with js.
Notation "x <- m ;; k" := (bind m (fun x => k))
  (at level 61, m at next level, right associativity) : js_scope.
Notation "m ;;; k" := (bind m (fun _ => k))
  (at level 61, right associativity) : js_scope.

(** *** The commands as seen through [invoke] *)

(** [invoke("save_note", { content })]: the call is recorded and handed to
    the store. *)
Definition invoke_save_note (content : string) : Js Env unit :=
  fun e =>
    let e1 := record_call (save_note content) e in
    let (r, s') := NoteStore.save content (store e1) in
    (set_store s' e1, r).

(** Modelled from the spec: [force_window_on_top() -> ok|error], a one-shot
    re-assertion of the top-most level, refused when the window manager
    refuses. *)
Definition invoke_force_window_on_top : Js Env unit :=
  fun e =>
    let e1 := record_call force_window_on_top e in
    if wm_ok e1 then (set_window (forceOnTop (window e1)) e1, Resolved tt)
    else (e1, Rejected WindowManagerError).

(** Modelled from the spec: [debug_window_info() -> text], a diagnostic
    snapshot that changes nothing. *)
Definition invoke_debug_window_info : Js Env string :=
  fun e =>
    let e1 := record_call debug_window_info e in
    if wm_ok e1 then (e1, Resolved (wm_info e1))
    else (e1, Rejected WindowManagerError).

(** [getCurrentWindow().startDragging()] *)
Definition invoke_startDragging : Js Env unit :=
  fun e =>
    let e1 := record_call startDragging e in
    if wm_ok e1 then (e1, Resolved tt) else (e1, Rejected WindowManagerError).

(** ** The timer queue: [setTimeout] and [clearTimeout] *)

Section Timers.

(** [C] is the type of the closures handed to [setTimeout]. *)
Variable C : Type.

Record Timer : Type := mkTimer { tid : nat; due : nat; cb : C }.

Record Loop : Type := mkLoop { next_id : nat; timers : list Timer }.

Definition no_timers : Loop := mkLoop 0 [].

(** [setTimeout(cb, delay)] at time [t]: a fresh id is returned. *)
Definition setTimeout (c : C) (delay : nat) (t : nat) (l : Loop) : nat * Loop :=
  (next_id l, mkLoop (S (next_id l)) (timers l ++ [mkTimer (next_id l) (t + delay) c])).

(** [clearTimeout(id)]; [clearTimeout(undefined)] and the id of a timer
    that already fired do nothing. *)
Definition clearTimeout (id : option nat) (l : Loop) : Loop :=
  match id with
  | None => l
  | Some i => mkLoop (next_id l) (filter (fun t => negb (Nat.eqb (tid t) i)) (timers l))
  end.

(** Timers fire in the order of their deadlines, ties in the order they
    were set. *)
Fixpoint insert_due (t : Timer) (l : list Timer) : list Timer :=
  match l with
  | [] => [t]
  | u :: l' => if Nat.ltb (due t) (due u) then t :: u :: l'
               else u :: insert_due t l'
  end.

Fixpoint firing_order (l : list Timer) : list Timer :=
  match l with
  | [] => []
  | t :: l' => insert_due t (firing_order l')
  end.

Definition is_due (limit : nat) (t : Timer) : bool := Nat.leb (due t) limit.

(** No closure of this program sets or clears a timer, so running one
    acts on the environment only. *)
Variable run : C -> Env -> Env.

(** A timer fires at its deadline. *)
Definition fire (e : Env) (t : Timer) : Env :=
  run (cb t) (set_now (due t) e).

(** [dt] milliseconds pass: every timer due by then fires, the others
    stay queued. *)
Definition advance (dt : nat) (e : Env) (l : Loop) : Env * Loop :=
  let limit := now e + dt in
  let fired := firing_order (rev (filter (is_due limit) (timers l))) in
  (set_now limit (fold_left fire fired e),
   mkLoop (next_id l) (filter (fun t => negb (is_due limit t)) (timers l))).

End Timers.

Arguments mkTimer {C} tid due cb.
Arguments mkLoop {C} next_id timers.
Arguments no_timers {C}.

(** A session starts at time 0 with the window in its initial state and
    empty traces. *)
Definition fresh_env (s : NoteStore.t) : Env :=
  mkEnv 0 s Window.initial true "level, frame, screen" [] [] [].

(** A store that already holds [c]. *)
Definition holding (c : string) : NoteStore.t := NoteStore.mk (Some c) true.

(** ** Bursts of edits

    A burst is a first edit followed by further ones, each given with the
    time (ms) elapsed since the edit before it. *)




(** ** The component with the auto-save effect

    [useState] cells are fields of [App]; the effect keyed on
    [[noteContent]] re-runs (cleanup first) exactly when a render sees a
    new value of [noteContent]. *)

Module AutoSave.

(** The closure handed to [setTimeout] by the effect:
    [() => { if (noteContent !== undefined) saveNote(); }], with the
    [noteContent] of the render that created it. *)
Inductive Closure : Type :=
| AutoSaveTick (noteContent : string).

(** [timeoutId] is the id held by the cleanup closure of the last run of
    the auto-save effect. *)
Record App : Type := mkApp {
  noteContent : string;
  showSettings : bool;
  isLoading : bool;
  timeoutId : nat
}.

(** [load_reply] is the reply to [invoke("load_note")] while the promise
    has not settled. *)
Record World : Type := mkWorld {
  app : App;
  loop : Loop Closure;
  env : Env;
  load_reply : option (Reply string)
}.

Definition on_env (f : Env -> Env) (w : World) : World :=
  mkWorld (app w) (loop w) (f (env w)) (load_reply w).

Definition on_app (f : App -> App) (w : World) : World :=
  mkWorld (f (app w)) (loop w) (env w) (load_reply w).

(** The delay of the auto-save timer. *)
Definition D : nat := 500.

Definition saveNote (noteContent : string) : Js Env unit :=
  try_catch (invoke_save_note noteContent)
            (fun error => effect (print (console_error "Failed to save note:" error))).

(** A string is never [undefined]: the guard of the closure always
    passes.  The promise of [saveNote] is dropped. *)
Definition run (c : Closure) (e : Env) : Env :=
  match c with
  | AutoSaveTick content => fst (saveNote content e)
  end.

(** The body of the auto-save effect. *)
Definition autosave_effect (w : World) : World :=
  let (id, l) := setTimeout (AutoSaveTick (noteContent (app w))) D (now (env w)) (loop w) in
  mkWorld (mkApp (noteContent (app w)) (showSettings (app w)) (isLoading (app w)) id)
          l (env w) (load_reply w).

(** Its cleanup: [() => clearTimeout(timeoutId)]. *)
Definition autosave_cleanup (w : World) : World :=
  mkWorld (app w) (clearTimeout (Some (timeoutId (app w))) (loop w)) (env w) (load_reply w).

(** [setNoteContent(v)]: an unchanged value renders nothing anew; a new
    value re-renders, and the effect keyed on it is cleaned up and run
    again. *)
Definition setNoteContent (v : string) (w : World) : World :=
  if String.eqb v (noteContent (app w)) then w
  else
    let w1 := on_app (fun a => mkApp v (showSettings a) (isLoading a) (timeoutId a)) w in
    autosave_effect (autosave_cleanup w1).

Definition setShowSettings (b : bool) : World -> World :=
  on_app (fun a => mkApp (noteContent a) b (isLoading a) (timeoutId a)).

Definition setIsLoading (b : bool) : World -> World :=
  on_app (fun a => mkApp (noteContent a) (showSettings a) b (timeoutId a)).

(** [loadNote] up to its [await]: the command is sent, the store answers. *)
Definition loadNote_start (w : World) : World :=
  mkWorld (app w) (loop w) (record_call load_note (env w))
          (Some (NoteStore.load (store (env w)))).

(** [loadNote] from its [await] on, once the promise settled to [r]. *)
Definition loadNote_resume (r : Reply string) : Js World unit :=
  finally
    (try_catch
       (content <- await r ;; effect (setNoteContent content))%js
       (fun error => effect (on_env (print (console_error "Failed to load note:" error)))))
    (setIsLoading false).

Definition handleDragStart : Js Env unit := invoke_startDragging.

Definition forceWindowOnTop : Js Env unit :=
  try_catch
    (invoke_force_window_on_top ;;; effect (print (console_log "Forced window on top" [])))%js
    (fun error => effect (print (console_error "Failed to force window on top:" error))).

Definition debugWindowInfo : Js Env unit :=
  try_catch
    (info <- invoke_debug_window_info ;;
     effect (print (console_log ("Window Debug Info:" ++ LF) [info])) ;;;
     effect (show_alert ("Debug info logged to console:" ++ LF ++ LF ++ info)))%js
    (fun error => effect (print (console_error "Failed to get debug info:" error))).

(** First render and the two effects, in source order. *)
Definition mount (e : Env) : World :=
  autosave_effect (loadNote_start (mkWorld (mkApp "" false true 0) no_timers e None)).

(** Unmounting runs the cleanup of the auto-save effect; the other effect
    has none. *)
Definition unmount (w : World) : World := autosave_cleanup w.

(** What can happen to a mounted component. *)
Inductive Event : Type :=
| Tick (dt : nat)                 (* [dt] ms pass *)
| LoadSettles                     (* the promise of [load_note] settles *)
| Change (v : string)             (* [onChange] of the textarea, new value [v] *)
| OpenSettings
| CloseSettings
| ClickForceOnTop
| ClickDebugInfo
| DragStart
| Hotkey                          (* the global shortcut, native side *)
| Medium (ok : bool)              (* the storage medium comes or goes *)
| WindowManager (ok : bool) (info : string).

(** While [isLoading] only the title bar is rendered; the two buttons
    live in the settings panel. *)
Definition step (ev : Event) (w : World) : World :=
  match ev with
  | Tick dt =>
      let (e, l) := advance run dt (env w) (loop w) in
      mkWorld (app w) l e (load_reply w)
  | LoadSettles =>
      match load_reply w with
      | None => w
      | Some r => fst (loadNote_resume r (mkWorld (app w) (loop w) (env w) None))
      end
  | Change v =>
      if isLoading (app w) then w else setNoteContent v w
  | OpenSettings =>
      if isLoading (app w) then w else setShowSettings true w
  | CloseSettings =>
      if isLoading (app w) then w
      else if showSettings (app w) then setShowSettings false w else w
  | ClickForceOnTop =>
      if isLoading (app w) then w
      else if showSettings (app w) then on_env (fun e => fst (forceWindowOnTop e)) w else w
  | ClickDebugInfo =>
      if isLoading (app w) then w
      else if showSettings (app w) then on_env (fun e => fst (debugWindowInfo e)) w else w
  | DragStart => on_env (fun e => fst (handleDragStart e)) w
  | Hotkey => on_env (fun e => set_window (toggleHotkey (window e)) e) w
  | Medium ok =>
      on_env (fun e => set_store (NoteStore.mk (NoteStore.slot (store e)) ok) e) w
  | WindowManager ok info =>
      on_env (fun e => mkEnv (now e) (store e) (window e) ok info
                             (ipc e) (console e) (alerts e)) w
  end.

Definition run_events (evs : list Event) (w : World) : World :=
  fold_left (fun w ev => step ev w) evs w.

(** The worlds a session can be in. *)
Definition reachable (w : World) : Prop :=
  exists e evs, w = run_events evs (mount e).

(** A flush is pending: the timer of the last effect run is still queued. *)
Definition flush_pending (w : World) : bool :=
  existsb (fun t => Nat.eqb (tid t) (timeoutId (app w))) (timers (loop w)).

(** The queue holds at most the timer of the last effect run, and that
    timer saves what is on screen. *)
Definition queue_ok (w : World) : Prop :=
  timers (loop w) = [] \/
  exists d, now (env w) <= d /\
    timers (loop w) = [mkTimer (timeoutId (app w)) d (AutoSaveTick (noteContent (app w)))].

(** The further edits of a burst, each [gap] ms after the one before. *)
Fixpoint burst (edits : list (nat * string)) (w : World) : World :=
  match edits with
  | [] => w
  | (gap, v) :: rest => burst rest (step (Change v) (step (Tick gap) w))
  end.


(** A session in which the stored note was loaded and has long been
    written back. *)
Definition idle : World :=
  run_events [LoadSettles; Tick 1000] (mount (fresh_env (holding "abc"))).

(** The same session, 100 ms after the user changed the note to "Hello". *)
Definition typed_hello : World :=
  run_events [Change "Hello"; Tick 100] idle.

(** The state in the middle of a burst: the last edit, to [v], happened at
    [t0]; its timer is the only one queued. *)
Definition armed (w : World) (t0 : nat) (v : string) : Prop :=
  timers (loop w) = [mkTimer (timeoutId (app w)) (t0 + D) (AutoSaveTick v)] /\
  noteContent (app w) = v /\
  isLoading (app w) = false /\
  t0 <= now (env w) < t0 + D.

(** The claim about shutdown, at one world: if a flush is pending, then
    unmounting issues a save of the content on screen. *)
Definition shutdown_flushes (w : World) : Prop :=
  flush_pending w = true ->
  exists t pre,
    ipc (env (unmount w)) = pre ++ ipc (env w) /\
    In (t, save_note (noteContent (app w))) pre.

(** The claim about seeding, at one environment: once the loaded content
    is applied, and with no edit, no save is scheduled by it. *)
Definition seeding_schedules_nothing (e : Env) : Prop :=
  timers (loop (step LoadSettles (mount e))) = timers (loop (mount e)).

End AutoSave.

(** ** The component with the [debounce] utility

    This revision keeps the text inside the editor widget and hands
    [editor.getText()] to [debouncedSave] from [onUpdate].  The widget is
    opaque: of it the model keeps only whether it exists and the HTML last
    handed to [setContent]; whether [setContent] makes the widget call
    [onUpdate] is the widget's business, an [Update] event may follow or
    not.  [onUpdate] is the handler given to [useEditor] when the widget
    is created, so the calls go to one closure returned by [debounce],
    with one [timeoutId]. *)

Module Debounce.

(** The closures handed to [setTimeout]: the one built by [debounce],
    [() => func.apply(null, args)] with [func] the wrapper around
    [saveNote], and [() => editor?.commands.focus()] of [loadNote]. *)
Inductive Closure : Type :=
| Delayed (args : string)
| FocusEditor.

(** [timeoutId] is the variable captured by the closure [debounce]
    returned ([None] is [undefined]); [editor] is [None] while the widget
    does not exist. *)
Record World : Type := mkWorld {
  isLoading : bool;
  timeoutId : option nat;
  editor : option string;
  loop : Loop Closure;
  env : Env;
  load_reply : option (Reply string)
}.

Definition saveNote (content : string) : Js Env unit :=
  try_catch (invoke_save_note content)
            (fun error => effect (print (console_error "Failed to save note:" error))).

Definition run (c : Closure) (e : Env) : Env :=
  match c with
  | Delayed content => fst (saveNote content e)
  | FocusEditor => e
  end.

(** One call of the function returned by [debounce(func, delay)]:
    [clearTimeout(timeoutId); timeoutId = setTimeout(..., delay)]. *)
Definition debounce (delay : nat) (args : string) (w : World) : World :=
  let l1 := clearTimeout (timeoutId w) (loop w) in
  let (id, l2) := setTimeout (Delayed args) delay (now (env w)) l1 in
  mkWorld (isLoading w) (Some id) (editor w) l2 (env w) (load_reply w).

Definition debouncedSave : string -> World -> World := debounce 500.

(** [onUpdate], with [text] the value of [editor.getText()]. *)
Definition onUpdate (text : string) (w : World) : World := debouncedSave text w.

(** [content.replace(/\n/g, '<br>')] *)
Fixpoint replace_newlines (content : string) : string :=
  match content with
  | EmptyString => EmptyString
  | String c rest =>
      if Ascii.eqb c "010"%char then "<br>" ++ replace_newlines rest
      else String c (replace_newlines rest)
  end.

(** [if (editor && content) editor.commands.setContent(htmlContent)]:
    the empty string is falsy. *)
Definition seed (content : string) (w : World) : World :=
  match editor w, content with
  | Some _, String _ _ =>
      mkWorld (isLoading w) (timeoutId w) (Some (replace_newlines content))
              (loop w) (env w) (load_reply w)
  | _, _ => w
  end.

Definition focus_later (w : World) : World :=
  let (_, l) := setTimeout FocusEditor 100 (now (env w)) (loop w) in
  mkWorld (isLoading w) (timeoutId w) (editor w) l (env w) (load_reply w).

Definition on_env (f : Env -> Env) (w : World) : World :=
  mkWorld (isLoading w) (timeoutId w) (editor w) (loop w) (f (env w)) (load_reply w).

Definition setIsLoading (b : bool) (w : World) : World :=
  mkWorld b (timeoutId w) (editor w) (loop w) (env w) (load_reply w).

Definition loadNote_start (w : World) : World :=
  mkWorld (isLoading w) (timeoutId w) (editor w) (loop w)
          (record_call load_note (env w))
          (Some (NoteStore.load (store (env w)))).

Definition loadNote_resume (r : Reply string) : Js World unit :=
  finally
    (try_catch
       (content <- await r ;; effect (seed content) ;;; effect focus_later)%js
       (fun error => effect (on_env (print (console_error "Failed to load note:" error)))))
    (setIsLoading false).

(** First render ([content: ''] in the widget, when it exists) and the
    effect calling [loadNote]. *)
Definition mount (editor_exists : bool) (e : Env) : World :=
  loadNote_start
    (mkWorld true None (if editor_exists then Some "" else None) no_timers e None).

Inductive Event : Type :=
| Tick (dt : nat)
| LoadSettles
| Update (text : string).

Definition step (ev : Event) (w : World) : World :=
  match ev with
  | Tick dt =>
      let (e, l) := advance run dt (env w) (loop w) in
      mkWorld (isLoading w) (timeoutId w) (editor w) l e (load_reply w)
  | LoadSettles =>
      match load_reply w with
      | None => w
      | Some r =>
          fst (loadNote_resume r
                 (mkWorld (isLoading w) (timeoutId w) (editor w) (loop w) (env w) None))
      end
  | Update text => onUpdate text w
  end.

Definition run_events (evs : list Event) (w : World) : World :=
  fold_left (fun w ev => step ev w) evs w.

Definition reachable (w : World) : Prop :=
  exists b e evs, w = run_events evs (mount b e).

Definition is_delayed (t : Timer Closure) : bool :=
  match cb t with Delayed _ => true | FocusEditor => false end.

(** The timers of the debounced closure that are still queued. *)
Definition delayed (l : list (Timer Closure)) : list (Timer Closure) :=
  filter is_delayed l.

(** At most one of them is, and [timeoutId] names it. *)
Definition queue_ok (w : World) : Prop :=
  delayed (timers (loop w)) = [] \/
  exists id d c, delayed (timers (loop w)) = [mkTimer id d (Delayed c)] /\
                 timeoutId w = Some id /\ now (env w) <= d.

(** The further updates of a burst, each [gap] ms after the one before. *)
Fixpoint burst (edits : list (nat * string)) (w : World) : World :=
  match edits with
  | [] => w
  | (gap, v) :: rest => burst rest (step (Update v) (step (Tick gap) w))
  end.

(** A session in which the stored note was loaded one second ago. *)
Definition idle : World :=
  run_events [LoadSettles; Tick 1000] (mount true (fresh_env (holding "abc"))).

(** The state in the middle of a burst: the last update, with [v],
    happened at [t0]; its timer is the only queued one of the closure. *)
Definition armed (w : World) (t0 : nat) (v : string) : Prop :=
  (exists id, delayed (timers (loop w)) = [mkTimer id (t0 + 500) (Delayed v)] /\
              timeoutId w = Some id) /\
  t0 <= now (env w) < t0 + 500.

End Debounce.

(** ** Further notions

    Classes of events and measures of traces and strings that the
    properties of the whole component speak about. *)

(** A press on the title bar, on a button of the settings panel, or the
    hotkey: what the user can do besides editing. *)
Definition is_chrome (ev : AutoSave.Event) : bool :=
  match ev with
  | AutoSave.OpenSettings | AutoSave.CloseSettings
  | AutoSave.ClickForceOnTop | AutoSave.ClickDebugInfo
  | AutoSave.DragStart | AutoSave.Hotkey => true
  | _ => false
  end.

(** The event does not take the storage medium away. *)
Definition keeps_medium (ev : AutoSave.Event) : bool :=
  match ev with
  | AutoSave.Medium ok => ok
  | _ => true
  end.

(** With the medium available, nothing is queued only when what is on
    screen is what is stored. *)
Definition settled_means_stored (w : AutoSave.World) : Prop :=
  NoteStore.medium_ok (store (AutoSave.env w)) = true /\
  AutoSave.queue_ok w /\
  (timers (AutoSave.loop w) = [] ->
   NoteStore.slot (store (AutoSave.env w)) =
     Some (AutoSave.noteContent (AutoSave.app w))).

(** The event can put a new content on screen: an edit, or the load
    settling. *)
Definition changes_content (ev : AutoSave.Event) : bool :=
  match ev with
  | AutoSave.Change _ | AutoSave.LoadSettles => true
  | _ => false
  end.


(** The times at which [load_note] was invoked, newest first. *)
Fixpoint loads (l : list (nat * Command)) : list nat :=
  match l with
  | [] => []
  | (t, load_note) :: l' => t :: loads l'
  | _ :: l' => loads l'
  end.

(** Does the string hold a line feed, and how many. *)
Fixpoint has_LF (s : string) : bool :=
  match s with
  | EmptyString => false
  | String c rest => Ascii.eqb c "010"%char || has_LF rest
  end.

Fixpoint count_LF (s : string) : nat :=
  match s with
  | EmptyString => 0
  | String c rest => (if Ascii.eqb c "010"%char then 1 else 0) + count_LF rest
  end.

Unset Implicit Arguments.

(** * Properties *)

(** ** The native side *)

Lemma store_save_ok (x : string) (s : NoteStore.t) :
  NoteStore.medium_ok s = true ->
  NoteStore.save x s = (Resolved tt, NoteStore.mk (Some x) true).
Proof.
  intros H. unfold NoteStore.save. rewrite H. reflexivity.
Qed.

Lemma store_save_fails (x : string) (s : NoteStore.t) :
  NoteStore.medium_ok s = false ->
  NoteStore.save x s = (Rejected StorageUnavailable, s).
Proof.
  intros H. unfold NoteStore.save. rewrite H. reflexivity.
Qed.

Lemma forceOnTop_idempotent (s : WindowVisibilityState) :
  forceOnTop (forceOnTop s) = forceOnTop s.
Proof. destruct s; reflexivity. Qed.

(** ** The timer queue *)

Section TimerFacts.

Variable C : Type.
Variable run : C -> Env -> Env.

Lemma advance_empty (dt : nat) (e : Env) (l : Loop C) :
  timers l = [] ->
  advance run dt e l = (set_now (now e + dt) e, mkLoop (next_id l) []).
Proof.
  intros H. unfold advance. rewrite H. reflexivity.
Qed.

Lemma advance_single_waits (dt : nat) (e : Env) (l : Loop C) (t : Timer C) :
  timers l = [t] -> now e + dt < due t ->
  advance run dt e l = (set_now (now e + dt) e, mkLoop (next_id l) [t]).
Proof.
  intros H Hlt. unfold advance. rewrite H. simpl. unfold is_due.
  destruct (Nat.leb_spec (due t) (now e + dt)) as [Hle|_]; [lia|].
  reflexivity.
Qed.

Lemma advance_single_fires (dt : nat) (e : Env) (l : Loop C) (t : Timer C) :
  timers l = [t] -> due t <= now e + dt ->
  advance run dt e l =
    (set_now (now e + dt) (run (cb t) (set_now (due t) e)), mkLoop (next_id l) []).
Proof.
  intros H Hle. unfold advance. rewrite H. simpl. unfold is_due.
  destruct (Nat.leb_spec (due t) (now e + dt)) as [_|Hlt]; [|lia].
  reflexivity.
Qed.



(** After [advance], nothing that was due is left in the queue. *)
Lemma advance_leaves_nothing_due (dt : nat) (e : Env) (l : Loop C) :
  Forall (fun t => now e + dt < due t) (timers (snd (advance run dt e l))).
Proof.
  unfold advance. simpl. apply Forall_forall. intros t Ht.
  apply filter_In in Ht. destruct Ht as [_ Ht]. unfold is_due in Ht.
  destruct (Nat.leb_spec (due t) (now e + dt)); [discriminate | lia].
Qed.




End TimerFacts.

(** ** The auto-save effect *)

Section AutoSaveFacts.

Import AutoSave.

(** [saveNote] catches whatever [invoke] throws. *)
Lemma saveNote_never_throws (c : string) (e : Env) :
  snd (saveNote c e) = Resolved tt.
Proof.
  unfold saveNote, try_catch, invoke_save_note, NoteStore.save. simpl.
  destruct (NoteStore.medium_ok (store e)); reflexivity.
Qed.

Lemma saveNote_ok (c : string) (e : Env) :
  NoteStore.medium_ok (store e) = true ->
  fst (saveNote c e) =
    mkEnv (now e) (NoteStore.mk (Some c) true) (window e) (wm_ok e) (wm_info e)
          ((now e, save_note c) :: ipc e) (console e) (alerts e).
Proof.
  intros H. unfold saveNote, try_catch, invoke_save_note, NoteStore.save. simpl.
  rewrite H. reflexivity.
Qed.

Lemma saveNote_fails (c : string) (e : Env) :
  NoteStore.medium_ok (store e) = false ->
  fst (saveNote c e) =
    mkEnv (now e) (store e) (window e) (wm_ok e) (wm_info e)
          ((now e, save_note c) :: ipc e)
          (console_error "Failed to save note:" StorageUnavailable :: console e)
          (alerts e).
Proof.
  intros H. unfold saveNote, try_catch, invoke_save_note, NoteStore.save. simpl.
  rewrite H. destruct e; reflexivity.
Qed.

Lemma saveNote_ipc (c : string) (e : Env) :
  ipc (fst (saveNote c e)) = (now e, save_note c) :: ipc e.
Proof.
  destruct (NoteStore.medium_ok (store e)) eqn:H.
  - rewrite saveNote_ok by assumption. reflexivity.
  - rewrite saveNote_fails by assumption. reflexivity.
Qed.

Lemma saveNote_now (c : string) (e : Env) :
  now (fst (saveNote c e)) = now e.
Proof.
  destruct (NoteStore.medium_ok (store e)) eqn:H.
  - rewrite saveNote_ok by assumption. reflexivity.
  - rewrite saveNote_fails by assumption. reflexivity.
Qed.

(** An edit that changes the content leaves exactly its own timer queued. *)
Lemma change_arms (w : World) (v : string) :
  queue_ok w -> isLoading (app w) = false -> v <> noteContent (app w) ->
  armed (step (Change v) w) (now (env w)) v /\
  env (step (Change v) w) = env w /\
  showSettings (app (step (Change v) w)) = showSettings (app w) /\
  load_reply (step (Change v) w) = load_reply w.
Proof.
  intros Hq Hl Hv. unfold step. rewrite Hl. unfold setNoteContent.
  apply String.eqb_neq in Hv. rewrite Hv.
  unfold autosave_effect, autosave_cleanup, setTimeout, clearTimeout, armed, on_app.
  simpl.
  assert (Hf : filter (fun t : Timer Closure => negb (Nat.eqb (tid t) (timeoutId (app w))))
                 (timers (loop w)) = []).
  { destruct Hq as [H | [d [_ H]]]; rewrite H; simpl; [reflexivity|].
    rewrite Nat.eqb_refl. reflexivity. }
  rewrite Hf. simpl. unfold D.
  repeat split; try reflexivity; try assumption; lia.
Qed.

(** An edit to the value already on screen changes nothing at all. *)
Lemma change_same_value (w : World) :
  step (Change (noteContent (app w))) w = w.
Proof.
  unfold step, setNoteContent. rewrite String.eqb_refl.
  destruct (isLoading (app w)); reflexivity.
Qed.

Lemma tick_while_armed (w : World) (t0 : nat) (v : string) (dt : nat) :
  armed w t0 v -> now (env w) + dt < t0 + D ->
  armed (step (Tick dt) w) t0 v /\
  env (step (Tick dt) w) = set_now (now (env w) + dt) (env w).
Proof.
  intros [Ht [Hc [Hl Hn]]] Hlt. unfold step.
  rewrite (advance_single_waits _ run dt (env w) (loop w) _ Ht) by (simpl; lia).
  unfold armed. simpl. repeat split; try assumption; lia.
Qed.

Lemma tick_fires_timer (w : World) (id d : nat) (v : string) (dt : nat) :
  timers (loop w) = [mkTimer id d (AutoSaveTick v)] -> d <= now (env w) + dt ->
  step (Tick dt) w =
    mkWorld (app w) (mkLoop (next_id (loop w)) [])
            (set_now (now (env w) + dt) (fst (saveNote v (set_now d (env w)))))
            (load_reply w).
Proof.
  intros Ht Hle. unfold step.
  rewrite (advance_single_fires _ run dt (env w) (loop w) _ Ht) by exact Hle.
  reflexivity.
Qed.

Lemma tick_fires_armed (w : World) (t0 : nat) (v : string) (dt : nat) :
  armed w t0 v -> t0 + D <= now (env w) + dt ->
  step (Tick dt) w =
    mkWorld (app w) (mkLoop (next_id (loop w)) [])
            (set_now (now (env w) + dt) (fst (saveNote v (set_now (t0 + D) (env w)))))
            (load_reply w).
Proof.
  intros [Ht [Hc [Hl Hn]]] Hle. unfold step.
  rewrite (advance_single_fires _ run dt (env w) (loop w) _ Ht) by (simpl; lia).
  reflexivity.
Qed.



End AutoSaveFacts.

(** ** The [debounce] utility *)

Section DebounceFacts.

Import Debounce.










End DebounceFacts.

(** ** Debounced persistence *)





(** ** Invariants of a session *)

Section AutoSaveInvariant.

Import AutoSave.

Lemma queue_ok_ext (w w' : World) :
  timers (loop w') = timers (loop w) ->
  timeoutId (app w') = timeoutId (app w) ->
  noteContent (app w') = noteContent (app w) ->
  now (env w') = now (env w) ->
  queue_ok w -> queue_ok w'.
Proof.
  intros Ht Hi Hc Hn [H | [d [Hd H]]]; unfold queue_ok; rewrite Ht, Hi, Hc, Hn.
  - left. exact H.
  - right. exists d. split; assumption.
Qed.

Lemma armed_queue_ok (w : World) (t0 : nat) (v : string) :
  armed w t0 v -> queue_ok w.
Proof.
  intros [Ht [Hc [_ Hn]]]. right. exists (t0 + D). split; [lia|].
  rewrite Ht, Hc. reflexivity.
Qed.

Lemma setNoteContent_queue_ok (v : string) (w : World) :
  queue_ok w -> queue_ok (setNoteContent v w).
Proof.
  intros Hq. unfold setNoteContent.
  destruct (String.eqb_spec v (noteContent (app w))) as [_|Hne]; [exact Hq|].
  right. exists (now (env w) + D). split; [simpl; lia|].
  unfold autosave_effect, autosave_cleanup, setTimeout, clearTimeout, on_app. simpl.
  assert (Hf : filter (fun t : Timer Closure => negb (Nat.eqb (tid t) (timeoutId (app w))))
                 (timers (loop w)) = []).
  { destruct Hq as [H | [d [_ H]]]; rewrite H; simpl; [reflexivity|].
    rewrite Nat.eqb_refl. reflexivity. }
  rewrite Hf. reflexivity.
Qed.

Lemma tick_queue_ok (dt : nat) (w : World) :
  queue_ok w -> queue_ok (step (Tick dt) w).
Proof.
  intros [H | [d [Hd H]]]; unfold step.
  - rewrite (advance_empty _ run dt (env w) (loop w) H). left. reflexivity.
  - destruct (Nat.le_gt_cases d (now (env w) + dt)) as [Hle|Hgt].
    + rewrite (advance_single_fires _ run dt (env w) (loop w) _ H) by exact Hle.
      left. reflexivity.
    + rewrite (advance_single_waits _ run dt (env w) (loop w) _ H) by exact Hgt.
      right. exists d. simpl. split; [lia | reflexivity].
Qed.

Lemma forceWindowOnTop_now (e : Env) : now (fst (forceWindowOnTop e)) = now e.
Proof.
  unfold forceWindowOnTop, try_catch, bind, invoke_force_window_on_top, effect. simpl.
  destruct (wm_ok e); reflexivity.
Qed.

Lemma debugWindowInfo_now (e : Env) : now (fst (debugWindowInfo e)) = now e.
Proof.
  unfold debugWindowInfo, try_catch, bind, invoke_debug_window_info, effect. simpl.
  destruct (wm_ok e); reflexivity.
Qed.

Lemma handleDragStart_now (e : Env) : now (fst (handleDragStart e)) = now e.
Proof.
  unfold handleDragStart, invoke_startDragging. simpl.
  destruct (wm_ok e); reflexivity.
Qed.

Lemma step_queue_ok (ev : Event) (w : World) :
  queue_ok w -> queue_ok (step ev w).
Proof.
  intros Hq. destruct ev.
  - apply tick_queue_ok. exact Hq.
  - unfold step. destruct (load_reply w) as [r|]; [|exact Hq].
    unfold loadNote_resume, finally, try_catch, bind, await, effect.
    destruct r as [content|err]; simpl.
    + apply (queue_ok_ext
               (setNoteContent content (mkWorld (app w) (loop w) (env w) None)));
        try reflexivity.
      apply setNoteContent_queue_ok. revert Hq. apply queue_ok_ext; reflexivity.
    + revert Hq. apply queue_ok_ext; reflexivity.
  - unfold step. destruct (isLoading (app w)); [exact Hq|].
    apply setNoteContent_queue_ok. exact Hq.
  - unfold step. destruct (isLoading (app w)); [exact Hq|].
    revert Hq. apply queue_ok_ext; reflexivity.
  - unfold step. destruct (isLoading (app w)); [exact Hq|].
    destruct (showSettings (app w)); [|exact Hq].
    revert Hq. apply queue_ok_ext; reflexivity.
  - unfold step. destruct (isLoading (app w)); [exact Hq|].
    destruct (showSettings (app w)); [|exact Hq].
    revert Hq. apply queue_ok_ext; try reflexivity. apply forceWindowOnTop_now.
  - unfold step. destruct (isLoading (app w)); [exact Hq|].
    destruct (showSettings (app w)); [|exact Hq].
    revert Hq. apply queue_ok_ext; try reflexivity. apply debugWindowInfo_now.
  - revert Hq. apply queue_ok_ext; try reflexivity. apply handleDragStart_now.
  - revert Hq. apply queue_ok_ext; reflexivity.
  - revert Hq. apply queue_ok_ext; reflexivity.
  - revert Hq. apply queue_ok_ext; reflexivity.
Qed.

Lemma mount_queue_ok (e : Env) : queue_ok (mount e).
Proof.
  right. exists (now e + D). split; [simpl; lia | reflexivity].
Qed.

Lemma run_events_queue_ok (evs : list Event) :
  forall w, queue_ok w -> queue_ok (run_events evs w).
Proof.
  induction evs as [|ev evs IH]; intros w Hq; simpl; [exact Hq|].
  apply IH, step_queue_ok, Hq.
Qed.

(** Every world of a session satisfies the queue invariant. *)
Lemma reachable_queue_ok (w : World) : reachable w -> queue_ok w.
Proof.
  intros [e [evs ->]]. apply run_events_queue_ok, mount_queue_ok.
Qed.

End AutoSaveInvariant.

Section DebounceInvariant.

Import Debounce.






End DebounceInvariant.

(** ** Shutdown *)

Section Shutdown.

Import AutoSave.

(** C2 as stated fails: 100 ms after the note was changed to "Hello" a
    flush is pending, yet unmounting sends nothing. *)
Lemma C2_pending_edit_not_flushed_on_shutdown :
  ~ shutdown_flushes typed_hello.
Proof.
  intros H. destruct (H eq_refl) as [t [pre [E I]]].
  change (ipc (env (unmount typed_hello))) with ([] ++ ipc (env typed_hello)) in E.
  apply app_inv_tail in E. subst pre. exact I.
Qed.

(** C2, amended.  On shutdown the cleanup of the auto-save effect cancels
    the pending timer and nothing else happens: no command is sent, the
    store keeps what it held, and no later passage of time sends a save
    either. *)
Theorem C2_shutdown_cancels_pending_save (w : World) :
  queue_ok w ->
  env (unmount w) = env w /\
  app (unmount w) = app w /\
  timers (loop (unmount w)) = [] /\
  flush_pending (unmount w) = false /\
  forall dt, ipc (env (step (Tick dt) (unmount w))) = ipc (env w) /\
             store (env (step (Tick dt) (unmount w))) = store (env w).
Proof.
  intros Hq.
  assert (Ht : timers (loop (unmount w)) = []).
  { unfold unmount, autosave_cleanup, clearTimeout. simpl.
    destruct Hq as [H | [d [_ H]]]; rewrite H; simpl; [reflexivity|].
    rewrite Nat.eqb_refl. reflexivity. }
  repeat split; try reflexivity; try exact Ht.
  - unfold flush_pending. rewrite Ht. reflexivity.
  - unfold step. rewrite (advance_empty _ run dt _ _ Ht). reflexivity.
  - unfold step. rewrite (advance_empty _ run dt _ _ Ht). reflexivity.
Qed.

Lemma C2_shutdown_while_typing :
  flush_pending typed_hello = true /\
  ipc (env (step (Tick 1000) (unmount typed_hello))) = ipc (env typed_hello) /\
  store (env (step (Tick 1000) (unmount typed_hello))) = holding "abc".
Proof.
  assert (Hq : queue_ok typed_hello).
  { right. exists 1500. split; [simpl; lia | reflexivity]. }
  destruct (C2_shutdown_cancels_pending_save typed_hello Hq) as [_ [_ [_ [_ H]]]].
  split; [reflexivity|]. exact (H 1000).
Defined.

End Shutdown.

(** ** Seeding *)

Section Seeding.

Import AutoSave.

Lemma setNoteContent_arms (w : World) (v : string) :
  queue_ok w -> v <> noteContent (app w) ->
  timers (loop (setNoteContent v w)) =
    [mkTimer (timeoutId (app (setNoteContent v w))) (now (env w) + D) (AutoSaveTick v)] /\
  noteContent (app (setNoteContent v w)) = v /\
  isLoading (app (setNoteContent v w)) = isLoading (app w) /\
  env (setNoteContent v w) = env w /\
  load_reply (setNoteContent v w) = load_reply w.
Proof.
  intros Hq Hv. unfold setNoteContent.
  apply String.eqb_neq in Hv. rewrite Hv.
  unfold autosave_effect, autosave_cleanup, setTimeout, clearTimeout, on_app. simpl.
  assert (Hf : filter (fun t : Timer Closure => negb (Nat.eqb (tid t) (timeoutId (app w))))
                 (timers (loop w)) = []).
  { destruct Hq as [H | [d [_ H]]]; rewrite H; simpl; [reflexivity|].
    rewrite Nat.eqb_refl. reflexivity. }
  rewrite Hf. repeat split; reflexivity.
Qed.

Lemma tick_keeps_load_reply (dt : nat) (w : World) :
  load_reply (step (Tick dt) w) = load_reply w /\
  app (step (Tick dt) w) = app w /\
  now (env (step (Tick dt) w)) = now (env w) + dt.
Proof.
  unfold step, advance. simpl. repeat split; reflexivity.
Qed.

(** C3 as stated fails: with "abc" in the store, applying the loaded
    content replaces the queued timer by one that saves "abc". *)
Lemma C3_seeding_schedules_a_save :
  ~ seeding_schedules_nothing (fresh_env (holding "abc")).
Proof.
  unfold seeding_schedules_nothing. vm_compute. discriminate.
Qed.

(** C3, amended.  The loaded content is applied once, through the same
    [setNoteContent] as an edit.  When it is not empty this re-runs the
    auto-save effect: the save queued at mount is cancelled, a save of the
    loaded content is queued, and it is sent 500 ms later without any user
    edit.  When it is empty nothing is queued or cancelled. *)
Theorem C3_seeding_reruns_autosave (e : Env) (dt : nat) :
  NoteStore.medium_ok (store e) = true ->
  let c := NoteStore.stored_bytes (store e) in
  let w := step (Tick dt) (mount e) in
  let w' := step LoadSettles w in
  noteContent (app w') = c /\
  isLoading (app w') = false /\
  step LoadSettles w' = w' /\
  (c <> "" ->
   armed w' (now (env w)) c /\
   ipc (env (step (Tick D) w')) = (now (env w) + D, save_note c) :: ipc (env w)) /\
  (c = "" -> loop w' = loop w /\ env w' = env w).
Proof.
  intros Hm c w w'.
  assert (Hq : queue_ok w) by apply tick_queue_ok, mount_queue_ok.
  destruct (tick_keeps_load_reply dt (mount e)) as [Hr [Ha Hn]]. fold w in Hr, Ha, Hn.
  assert (Hr' : load_reply w = Some (Resolved c)).
  { rewrite Hr. unfold mount, autosave_effect, loadNote_start, NoteStore.load. simpl.
    rewrite Hm. reflexivity. }
  assert (Hc0 : noteContent (app w) = "") by (rewrite Ha; reflexivity).
  clear Hr Ha Hn. clearbody w c.
  set (w0 := mkWorld (app w) (loop w) (env w) None).
  assert (Hq0 : queue_ok w0) by (revert Hq; apply queue_ok_ext; reflexivity).
  assert (Hw' : w' = setIsLoading false (setNoteContent c w0)).
  { unfold w', step. rewrite Hr'. reflexivity. }
  destruct (String.eqb_spec c "") as [Heq|Hne].
  - assert (Hs : setNoteContent c w0 = w0).
    { unfold setNoteContent. simpl. rewrite Hc0, Heq. reflexivity. }
    rewrite Hs in Hw'. rewrite Hw'. simpl.
    repeat split; try congruence.
  - assert (Hne0 : c <> noteContent (app w0)) by (simpl; rewrite Hc0; exact Hne).
    destruct (setNoteContent_arms w0 c Hq0 Hne0) as [Ht [Hc [Hl [He Hlr]]]].
    assert (Harm : armed w' (now (env w)) c).
    { rewrite Hw'. unfold armed, setIsLoading, on_app. simpl.
      rewrite Ht, Hc, He. simpl. unfold D. repeat split; lia. }
    split; [rewrite Hw'; simpl; exact Hc|].
    split; [rewrite Hw'; reflexivity|].
    split.
    { rewrite Hw'. unfold step, setIsLoading, on_app. simpl. rewrite Hlr. reflexivity. }
    split; [|intros; contradiction].
    intros _. split; [exact Harm|].
    rewrite (tick_fires_armed w' _ _ D Harm) by (destruct Harm as [_ [_ [_ B]]]; lia).
    simpl. rewrite saveNote_ipc. simpl.
    rewrite Hw'. simpl. rewrite He. reflexivity.
Qed.

Lemma C3_seeding_abc :
  NoteStore.medium_ok (holding "abc") = true /\
  ipc (env (run_events [Tick 0; LoadSettles; Tick 500] (mount (fresh_env (holding "abc")))))
  = [(500, save_note "abc"); (0, load_note)].
Proof.
  split; [reflexivity|].
  destruct (C3_seeding_reruns_autosave (fresh_env (holding "abc")) 0 eq_refl)
    as [_ [_ [_ [H _]]]].
  destruct H as [_ H]; [discriminate|]. exact H.
Defined.

End Seeding.

(** ** Failures *)

Section Failures.

Import AutoSave.

Lemma edit_then_quiet (w : World) (v : string) (q : nat) :
  queue_ok w -> isLoading (app w) = false -> v <> noteContent (app w) ->
  D <= q ->
  ipc (env (step (Tick q) (step (Change v) w))) =
    (now (env w) + D, save_note v) :: ipc (env w) /\
  noteContent (app (step (Tick q) (step (Change v) w))) = v /\
  (NoteStore.medium_ok (store (env w)) = true ->
   NoteStore.stored_bytes (store (env (step (Tick q) (step (Change v) w)))) = v).
Proof.
  intros Hq Hl Hv Hle.
  destruct (change_arms w v Hq Hl Hv) as [Ha [He _]].
  rewrite (tick_fires_armed _ _ _ q Ha) by (rewrite He; lia).
  cbn [env app]. split; [|split].
  - cbn [set_now ipc]. rewrite saveNote_ipc, He. reflexivity.
  - apply Ha.
  - intros Hm. rewrite He. rewrite saveNote_ok by exact Hm. reflexivity.
Qed.

(** C4.  When the save sent by the timer fails, the failure is written to
    the console and goes no further ([saveNote] completes normally); the
    note stays in memory and the store keeps what it held, so the content
    is still unsaved and not lost.  A later edit queues a save again, and
    that save carries the full content of the note; it reaches the store
    if the medium is back. *)
Theorem C4_failed_save_is_logged_and_retried_on_edit
        (w : World) (t0 : nat) (v : string) (dt : nat) :
  armed w t0 v ->
  t0 + D <= now (env w) + dt ->
  NoteStore.medium_ok (store (env w)) = false ->
  let w' := step (Tick dt) w in
  ipc (env w') = (t0 + D, save_note v) :: ipc (env w) /\
  console (env w') =
    console_error "Failed to save note:" StorageUnavailable :: console (env w) /\
  snd (saveNote v (set_now (t0 + D) (env w))) = Resolved tt /\
  noteContent (app w') = v /\
  store (env w') = store (env w) /\
  forall (v' : string) (ok : bool) (q : nat),
    v' <> v -> D <= q ->
    let w'' := step (Tick q) (step (Change v') (step (Medium ok) w')) in
    ipc (env w'') = (now (env w') + D, save_note v') :: ipc (env w') /\
    noteContent (app w'') = v' /\
    (ok = true -> NoteStore.stored_bytes (store (env w'')) = v').
Proof.
  intros Ha Hle Hm w'.
  assert (Hw' : w' = mkWorld (app w) (mkLoop (next_id (loop w)) [])
                       (set_now (now (env w) + dt)
                          (fst (saveNote v (set_now (t0 + D) (env w)))))
                       (load_reply w)).
  { apply (tick_fires_armed w t0 v dt Ha Hle). }
  destruct Ha as [Ht [Hc [Hl Hn]]].
  assert (F1 : ipc (env w') = (t0 + D, save_note v) :: ipc (env w)).
  { rewrite Hw'. cbn [env set_now ipc]. rewrite saveNote_ipc. reflexivity. }
  assert (F2 : console (env w') =
               console_error "Failed to save note:" StorageUnavailable :: console (env w)).
  { rewrite Hw'. cbn [env]. rewrite saveNote_fails by exact Hm. reflexivity. }
  assert (F3 : noteContent (app w') = v) by (rewrite Hw'; exact Hc).
  assert (F4 : store (env w') = store (env w)).
  { rewrite Hw'. cbn [env]. rewrite saveNote_fails by exact Hm. reflexivity. }
  assert (F5 : isLoading (app w') = false) by (rewrite Hw'; exact Hl).
  assert (F6 : timers (loop w') = []) by (rewrite Hw'; reflexivity).
  clearbody w'. clear Hw'.
  split; [exact F1|]. split; [exact F2|].
  split; [apply saveNote_never_throws|]. split; [exact F3|]. split; [exact F4|].
  intros v' ok q Hv Hq w''. subst w''.
  assert (Hq2 : queue_ok (step (Medium ok) w')) by (left; exact F6).
  assert (Hv2 : v' <> noteContent (app (step (Medium ok) w'))).
  { cbn. rewrite F3. exact Hv. }
  destruct (edit_then_quiet (step (Medium ok) w') v' q Hq2 F5 Hv2 Hq) as [E1 [E2 E3]].
  split; [exact E1|]. split; [exact E2|].
  intros ->. apply E3. reflexivity.
Qed.

Lemma C4_failed_save_of_hello :
  NoteStore.medium_ok (store (env (step (Medium false) typed_hello))) = false /\
  console (env (step (Tick 400) (step (Medium false) typed_hello))) =
    [console_error "Failed to save note:" StorageUnavailable] /\
  noteContent (app (step (Tick 400) (step (Medium false) typed_hello))) = "Hello".
Proof.
  assert (Ha : armed (step (Medium false) typed_hello) 1000 "Hello").
  { unfold armed. cbn. unfold D. repeat split; lia. }
  assert (Hle : 1000 + D <= now (env (step (Medium false) typed_hello)) + 400).
  { cbn. unfold D. lia. }
  destruct (C4_failed_save_is_logged_and_retried_on_edit
              (step (Medium false) typed_hello) 1000 "Hello" 400 Ha Hle eq_refl)
    as [_ [H1 [_ [H2 _]]]].
  split; [reflexivity|]. split; [exact H1 | exact H2].
Defined.

End Failures.

(** ** Loading and the store *)

Section Loading.

Import AutoSave.

Lemma mount_load_reply (e : Env) :
  load_reply (mount e) = Some (NoteStore.load (store e)) /\
  app (mount e) = mkApp "" false true 0 /\
  timers (loop (mount e)) = [mkTimer 0 (now e + D) (AutoSaveTick "")] /\
  env (mount e) = record_call load_note e.
Proof. repeat split; reflexivity. Qed.

Lemma load_settles_resolved (w : World) (c : string) :
  load_reply w = Some (Resolved c) ->
  step LoadSettles w =
    setIsLoading false (setNoteContent c (mkWorld (app w) (loop w) (env w) None)).
Proof.
  intros H. unfold step. rewrite H. reflexivity.
Qed.

Lemma load_settles_rejected (w : World) (err : BackendError) :
  load_reply w = Some (Rejected err) ->
  step LoadSettles w =
    setIsLoading false
      (on_env (print (console_error "Failed to load note:" err))
              (mkWorld (app w) (loop w) (env w) None)).
Proof.
  intros H. unfold step. rewrite H. reflexivity.
Qed.

Lemma setNoteContent_content (v : string) (w : World) :
  noteContent (app (setNoteContent v w)) = v /\
  env (setNoteContent v w) = env w.
Proof.
  unfold setNoteContent.
  destruct (String.eqb_spec v (noteContent (app w))) as [->|_]; split; reflexivity.
Qed.

(** [loadNote] catches whatever [invoke] throws. *)
Lemma loadNote_never_throws (r : Reply string) (w : World) :
  snd (loadNote_resume r w) = Resolved tt.
Proof.
  destruct r; reflexivity.
Qed.

(** Right after the load settled, the queued timer saves what was loaded. *)
Lemma loaded_then_armed (e : Env) :
  NoteStore.medium_ok (store e) = true ->
  armed (step LoadSettles (mount e)) (now e) (NoteStore.stored_bytes (store e)).
Proof.
  intros Hm.
  assert (Hr : load_reply (mount e) = Some (Resolved (NoteStore.stored_bytes (store e)))).
  { unfold mount, autosave_effect, loadNote_start, NoteStore.load. simpl.
    rewrite Hm. reflexivity. }
  rewrite (load_settles_resolved _ _ Hr).
  set (c := NoteStore.stored_bytes (store e)). clearbody c.
  unfold setNoteContent. cbn [app mount autosave_effect loadNote_start setTimeout
                              noteContent fst snd].
  destruct (String.eqb_spec c "") as [->|Hne].
  - unfold armed. cbn. unfold D. repeat split; lia.
  - unfold armed. cbn. unfold D. repeat split; lia.
Qed.

(** C5.  Round trip through the store: what [save] wrote is what [load]
    returns, for every content; saving back what was just loaded leaves
    the stored bytes as they were (and the whole store, once a note
    exists).  Through the component: the content sent by [saveNote] is the
    content a later session shows after loading, and the save that follows
    a load with no edit in between leaves the stored bytes as they were. *)
Theorem C5_store_round_trip :
  (forall (x : string) (s : NoteStore.t),
      NoteStore.medium_ok s = true ->
      NoteStore.load (snd (NoteStore.save x s)) = Resolved x) /\
  (forall (s : NoteStore.t) (c : string),
      NoteStore.load s = Resolved c ->
      fst (NoteStore.save c s) = Resolved tt /\
      NoteStore.stored_bytes (snd (NoteStore.save c s)) = NoteStore.stored_bytes s /\
      (NoteStore.slot s <> None -> snd (NoteStore.save c s) = s)) /\
  (forall (x : string) (e : Env),
      NoteStore.medium_ok (store e) = true ->
      noteContent (app (step LoadSettles (mount (fst (saveNote x e))))) = x) /\
  (forall (e : Env),
      NoteStore.medium_ok (store e) = true ->
      saves (ipc (env (run_events [LoadSettles; Tick D] (mount e)))) =
        (now e + D, NoteStore.stored_bytes (store e)) :: saves (ipc e) /\
      NoteStore.stored_bytes (store (env (run_events [LoadSettles; Tick D] (mount e)))) =
        NoteStore.stored_bytes (store e)).
Proof.
  split; [|split; [|split]].
  - intros x s H. rewrite store_save_ok by exact H. reflexivity.
  - intros s c H. unfold NoteStore.load in H. unfold NoteStore.save.
    destruct (NoteStore.medium_ok s) eqn:Hm; [|discriminate].
    injection H as <-. simpl. repeat split.
    destruct s as [[c|] ok]; simpl in *; [subst ok; reflexivity | congruence].
  - intros x e H. rewrite saveNote_ok by exact H.
    rewrite (load_settles_resolved _ x) by reflexivity.
    cbn [setIsLoading on_app app noteContent].
    apply setNoteContent_content.
  - intros e H. cbn [run_events fold_left].
    pose proof (loaded_then_armed e H) as Ha.
    assert (Hn : now (env (step LoadSettles (mount e))) = now e).
    { destruct (NoteStore.medium_ok (store e)) eqn:Hm; [|discriminate].
      rewrite (load_settles_resolved _ (NoteStore.stored_bytes (store e))).
      - cbn [setIsLoading on_app env]. 
        rewrite (proj2 (setNoteContent_content _ _)). reflexivity.
      - unfold mount, autosave_effect, loadNote_start, NoteStore.load. simpl.
        rewrite Hm. reflexivity. }
    assert (He : ipc (env (step LoadSettles (mount e))) = (now e, load_note) :: ipc e /\
                 NoteStore.medium_ok (store (env (step LoadSettles (mount e)))) = true).
    { rewrite (load_settles_resolved _ (NoteStore.stored_bytes (store e))).
      - cbn [setIsLoading on_app env].
        rewrite (proj2 (setNoteContent_content _ _)). split; [reflexivity | exact H].
      - unfold mount, autosave_effect, loadNote_start, NoteStore.load. simpl.
        rewrite H. reflexivity. }
    destruct He as [Hi Hm'].
    rewrite (tick_fires_armed _ _ _ D Ha) by lia.
    cbn [env set_now ipc store].
    rewrite saveNote_ok by exact Hm'. cbn [ipc store set_now now].
    rewrite Hi. split; reflexivity.
Qed.

Lemma C5_round_trip_examples :
  NoteStore.load (snd (NoteStore.save "" (holding "abc"))) = Resolved "" /\
  NoteStore.load (snd (NoteStore.save "one
---
two" NoteStore.first_run)) = Resolved "one
---
two" /\
  NoteStore.stored_bytes (store (env (run_events [LoadSettles; Tick D]
                                        (mount (fresh_env (holding "abc")))))) = "abc".
Proof.
  destruct C5_store_round_trip as [R1 [_ [_ R4]]].
  split; [apply R1; reflexivity|]. split; [apply R1; reflexivity|].
  apply (R4 (fresh_env (holding "abc")) eq_refl).
Defined.

(** C6.  On first run [load] returns the empty note and no error.  When
    the medium cannot be read, [loadNote] logs the failure and completes
    normally; the note in memory is then the empty string and the editor
    is shown. *)
Theorem C6_first_run_and_unreadable_medium :
  NoteStore.load NoteStore.first_run = Resolved "" /\
  (forall (s : NoteStore.t),
      NoteStore.slot s = None -> NoteStore.medium_ok s = true ->
      NoteStore.load s = Resolved "") /\
  (forall (e : Env) (dt : nat),
      NoteStore.medium_ok (store e) = false ->
      let w := step (Tick dt) (mount e) in
      noteContent (app (step LoadSettles w)) = "" /\
      isLoading (app (step LoadSettles w)) = false /\
      console (env (step LoadSettles w)) =
        console_error "Failed to load note:" StorageUnavailable :: console (env w) /\
      snd (loadNote_resume (Rejected StorageUnavailable)
                           (mkWorld (app w) (loop w) (env w) None)) = Resolved tt).
Proof.
  split; [reflexivity|]. split.
  - intros s Hs Hm. unfold NoteStore.load, NoteStore.stored_bytes.
    rewrite Hm, Hs. reflexivity.
  - intros e dt Hm w.
    destruct (tick_keeps_load_reply dt (mount e)) as [Hr [Ha _]]. fold w in Hr, Ha.
    assert (Hr' : load_reply w = Some (Rejected StorageUnavailable)).
    { rewrite Hr. unfold mount, autosave_effect, loadNote_start, NoteStore.load. simpl.
      rewrite Hm. reflexivity. }
    clearbody w. rewrite (load_settles_rejected _ _ Hr'). cbn.
    rewrite Ha. repeat split; reflexivity.
Qed.

Lemma C6_unreadable_medium_example :
  NoteStore.medium_ok (NoteStore.mk (Some "abc") false) = false /\
  noteContent (app (run_events [Tick 20; LoadSettles]
                      (mount (fresh_env (NoteStore.mk (Some "abc") false))))) = "".
Proof.
  destruct C6_first_run_and_unreadable_medium as [_ [_ H]].
  split; [reflexivity|].
  apply (H (fresh_env (NoteStore.mk (Some "abc") false)) 20 eq_refl).
Defined.

(** C10.  The auto-save effect runs at mount with the initial empty
    content and queues a save of the empty string for 500 ms later.  When
    the load has not settled by then, [save_note ""] is sent while the
    component is still loading, and the stored note is replaced by the
    empty string; the loaded content is applied only afterwards. *)
Theorem C10_mount_saves_empty_note_before_late_load (e : Env) (c : string) (dt : nat) :
  store e = holding c ->
  D <= dt ->
  timers (loop (mount e)) = [mkTimer 0 (now e + D) (AutoSaveTick "")] /\
  let w := step (Tick dt) (mount e) in
  ipc (env w) = (now e + D, save_note "") :: (now e, load_note) :: ipc e /\
  isLoading (app w) = true /\
  noteContent (app w) = "" /\
  load_reply w = Some (Resolved c) /\
  store (env w) = holding "" /\
  noteContent (app (step LoadSettles w)) = c /\
  store (env (step LoadSettles w)) = holding "".
Proof.
  intros Hs Hle. split; [reflexivity|]. intros w.
  assert (Hw : w = mkWorld (app (mount e)) (mkLoop (next_id (loop (mount e))) [])
                     (set_now (now (env (mount e)) + dt)
                        (fst (saveNote "" (set_now (now e + D) (env (mount e))))))
                     (load_reply (mount e))).
  { apply (tick_fires_timer (mount e) 0 (now e + D) "" dt); [reflexivity|].
    cbn. lia. }
  assert (Hm : NoteStore.medium_ok (store (set_now (now e + D) (env (mount e)))) = true).
  { cbn. rewrite Hs. reflexivity. }
  rewrite saveNote_ok in Hw by exact Hm.
  assert (Hr : load_reply w = Some (Resolved c)).
  { rewrite Hw. cbn. rewrite Hs. reflexivity. }
  assert (F : ipc (env w) = (now e + D, save_note "") :: (now e, load_note) :: ipc e /\
              store (env w) = holding "").
  { rewrite Hw. split; reflexivity. }
  assert (G : isLoading (app w) = true /\ noteContent (app w) = "").
  { rewrite Hw. split; reflexivity. }
  clearbody w. clear Hw.
  rewrite (load_settles_resolved _ _ Hr). cbn [setIsLoading on_app app env noteContent].
  destruct (setNoteContent_content c (mkWorld (app w) (loop w) (env w) None)) as [S1 S2].
  rewrite S1, S2. cbn [env].
  destruct F as [F1 F2], G as [G1 G2]. repeat split; assumption.
Qed.

Lemma C10_late_load_example :
  store (fresh_env (holding "abc")) = holding "abc" /\
  ipc (env (step (Tick 500) (mount (fresh_env (holding "abc"))))) =
    [(500, save_note ""); (0, load_note)] /\
  store (env (step (Tick 500) (mount (fresh_env (holding "abc"))))) = holding "".
Proof.
  destruct (C10_mount_saves_empty_note_before_late_load
              (fresh_env (holding "abc")) "abc" 500 eq_refl (le_n _))
    as [_ [H1 [_ [_ [_ [H2 _]]]]]].
  split; [reflexivity|]. split; [exact H1 | exact H2].
Defined.

End Loading.

(** ** The window *)

Section WindowFacts.

Import AutoSave.

(** C7.  Two presses of the hotkey starting from [Hidden] lead back to
    [Hidden], and one press from [VisibleForcedOnTop] leads to [Hidden];
    the [Hotkey] event of a session is that transition. *)
Theorem C7_toggleHotkey_involution :
  toggleHotkey (toggleHotkey Hidden) = Hidden /\
  toggleHotkey VisibleForcedOnTop = Hidden /\
  toggleHotkey Hidden = Visible /\
  toggleHotkey Visible = Hidden /\
  forall w : World,
    window (env (step Hotkey w)) = toggleHotkey (window (env w)).
Proof.
  repeat split.
Qed.

Lemma forceWindowOnTop_accepted (e : Env) :
  wm_ok e = true ->
  forceWindowOnTop e =
    (mkEnv (now e) (store e) (forceOnTop (window e)) (wm_ok e) (wm_info e)
           ((now e, force_window_on_top) :: ipc e)
           (console_log "Forced window on top" [] :: console e) (alerts e),
     Resolved tt).
Proof.
  intros H. destruct e. cbn in H. subst. reflexivity.
Qed.

Lemma forceWindowOnTop_refused (e : Env) :
  wm_ok e = false ->
  forceWindowOnTop e =
    (mkEnv (now e) (store e) (window e) (wm_ok e) (wm_info e)
           ((now e, force_window_on_top) :: ipc e)
           (console_error "Failed to force window on top:" WindowManagerError :: console e)
           (alerts e),
     Resolved tt).
Proof.
  intros H. destruct e. cbn in H. subst. reflexivity.
Qed.

(** C8.  From [Visible] or [VisibleForcedOnTop], forcing the window on top
    once, twice or any number of times leaves the controller in
    [VisibleForcedOnTop]; through the button of the settings panel two
    calls in a row both succeed, log no error, and leave the store and the
    component alone.  [forceWindowOnTop] completes normally even when the
    window manager refuses. *)
Theorem C8_forceOnTop_idempotent :
  (forall s, forceOnTop (forceOnTop s) = forceOnTop s) /\
  (forall s n, s = Visible \/ s = VisibleForcedOnTop ->
               Nat.iter (S n) forceOnTop s = VisibleForcedOnTop) /\
  (forall e, wm_ok e = true ->
             window e = Visible \/ window e = VisibleForcedOnTop ->
             let e1 := fst (forceWindowOnTop e) in
             let e2 := fst (forceWindowOnTop e1) in
             window e1 = VisibleForcedOnTop /\
             window e2 = VisibleForcedOnTop /\
             snd (forceWindowOnTop e) = Resolved tt /\
             snd (forceWindowOnTop e1) = Resolved tt /\
             console e2 = console_log "Forced window on top" []
                            :: console_log "Forced window on top" [] :: console e /\
             store e2 = store e) /\
  (forall e, snd (forceWindowOnTop e) = Resolved tt) /\
  (forall w : World,
      app (step ClickForceOnTop w) = app w /\
      loop (step ClickForceOnTop w) = loop w /\
      store (env (step ClickForceOnTop w)) = store (env w)).
Proof.
  split; [exact forceOnTop_idempotent|]. split; [|split; [|split]].
  - intros s n Hs. induction n as [|n IH].
    + destruct Hs as [-> | ->]; reflexivity.
    + change (Nat.iter (S (S n)) forceOnTop s)
        with (forceOnTop (Nat.iter (S n) forceOnTop s)).
      rewrite IH. reflexivity.
  - intros e Hok Hs e1 e2. subst e2 e1.
    rewrite (forceWindowOnTop_accepted e Hok). cbn [fst snd].
    rewrite forceWindowOnTop_accepted by exact Hok. cbn.
    rewrite forceOnTop_idempotent.
    destruct Hs as [-> | ->]; repeat split; reflexivity.
  - intros e. destruct (wm_ok e) eqn:H.
    + rewrite forceWindowOnTop_accepted by exact H. reflexivity.
    + rewrite forceWindowOnTop_refused by exact H. reflexivity.
  - intros w. unfold step.
    destruct (isLoading (app w)); [repeat split|].
    destruct (showSettings (app w)); [|repeat split].
    unfold on_env. cbn [app loop env].
    destruct (wm_ok (env w)) eqn:H.
    + rewrite forceWindowOnTop_accepted by exact H. repeat split.
    + rewrite forceWindowOnTop_refused by exact H. repeat split.
Qed.

Lemma C8_force_twice_from_visible :
  wm_ok (set_window Visible (fresh_env (holding "abc"))) = true /\
  window (fst (forceWindowOnTop
                 (fst (forceWindowOnTop (set_window Visible (fresh_env (holding "abc")))))))
  = VisibleForcedOnTop /\
  Nat.iter 2 forceOnTop VisibleForcedOnTop = VisibleForcedOnTop.
Proof.
  destruct C8_forceOnTop_idempotent as [_ [H1 [H2 _]]].
  split; [reflexivity|]. split.
  - apply (H2 (set_window Visible (fresh_env (holding "abc"))) eq_refl (or_introl eq_refl)).
  - apply (H1 VisibleForcedOnTop 1 (or_intror eq_refl)).
Defined.

Lemma debugWindowInfo_answered (e : Env) :
  wm_ok e = true ->
  debugWindowInfo e =
    (mkEnv (now e) (store e) (window e) (wm_ok e) (wm_info e)
           ((now e, debug_window_info) :: ipc e)
           (console_log ("Window Debug Info:" ++ LF)%string [wm_info e] :: console e)
           (("Debug info logged to console:" ++ LF ++ LF ++ wm_info e)%string :: alerts e),
     Resolved tt).
Proof.
  intros H. destruct e. cbn in H. subst. reflexivity.
Qed.

Lemma debugWindowInfo_refused (e : Env) :
  wm_ok e = false ->
  debugWindowInfo e =
    (mkEnv (now e) (store e) (window e) (wm_ok e) (wm_info e)
           ((now e, debug_window_info) :: ipc e)
           (console_error "Failed to get debug info:" WindowManagerError :: console e)
           (alerts e),
     Resolved tt).
Proof.
  intros H. destruct e. cbn in H. subst. reflexivity.
Qed.

Lemma debugWindowInfo_frame (e : Env) :
  store (fst (debugWindowInfo e)) = store e /\
  window (fst (debugWindowInfo e)) = window e /\
  now (fst (debugWindowInfo e)) = now e /\
  ipc (fst (debugWindowInfo e)) = (now e, debug_window_info) :: ipc e /\
  snd (debugWindowInfo e) = Resolved tt.
Proof.
  destruct (wm_ok e) eqn:H.
  - rewrite debugWindowInfo_answered by exact H. repeat split.
  - rewrite debugWindowInfo_refused by exact H. repeat split.
Qed.

(** C9.  [debugWindowInfo] only reports: whether the command succeeds or
    fails, and whatever text it returns, the note in memory, the settings
    and loading flags, the timer queue, the pending load, the store, the
    window state and the clock are what they were; the call leaves one
    entry in the command trace and lines on the console and in alerts, and
    it completes normally. *)
Theorem C9_debugWindowInfo_is_diagnostic_only :
  (forall e : Env,
      store (fst (debugWindowInfo e)) = store e /\
      window (fst (debugWindowInfo e)) = window e /\
      now (fst (debugWindowInfo e)) = now e /\
      ipc (fst (debugWindowInfo e)) = (now e, debug_window_info) :: ipc e /\
      snd (debugWindowInfo e) = Resolved tt) /\
  (forall (w : World) (ok : bool) (info : string),
      let w' := step ClickDebugInfo (step (WindowManager ok info) w) in
      app w' = app w /\
      loop w' = loop w /\
      load_reply w' = load_reply w /\
      store (env w') = store (env w) /\
      window (env w') = window (env w) /\
      now (env w') = now (env w)).
Proof.
  split; [exact debugWindowInfo_frame|].
  intros w ok info w'. subst w'.
  set (w1 := step (WindowManager ok info) w).
  assert (F : app w1 = app w /\ loop w1 = loop w /\ load_reply w1 = load_reply w /\
              store (env w1) = store (env w) /\ window (env w1) = window (env w) /\
              now (env w1) = now (env w)) by (repeat split).
  clearbody w1. destruct F as [F1 [F2 [F3 [F4 [F5 F6]]]]].
  rewrite <- F1, <- F2, <- F3, <- F4, <- F5, <- F6.
  unfold step.
  destruct (isLoading (app w1)); [repeat split|].
  destruct (showSettings (app w1)); [|repeat split].
  unfold on_env. cbn [app loop env load_reply].
  destruct (debugWindowInfo_frame (env w1)) as [G1 [G2 [G3 _]]].
  repeat split; assumption.
Qed.

End WindowFacts.

(** * Further properties of the component *)

(** ** Sessions of the auto-save revision *)

Section AutoSaveSessions.

Import AutoSave.

(** X1.  In every world of a session the timer queue holds at most one
    timer; when it holds one, it is the timer named by the cleanup of the
    last effect run, its deadline has not passed, and its closure saves
    exactly the content now on screen. *)
Theorem X1_one_timer_saving_what_is_shown (w : World) :
  reachable w ->
  length (timers (loop w)) <= 1 /\
  forall t, In t (timers (loop w)) ->
            tid t = timeoutId (app w) /\
            cb t = AutoSaveTick (noteContent (app w)) /\
            now (env w) <= due t.
Proof.
  intros Hr. destruct (reachable_queue_ok w Hr) as [H | [d [Hd H]]]; rewrite H.
  - split; [simpl; lia | intros t []].
  - split; [simpl; lia|]. intros t [<- | []]. simpl. repeat split. exact Hd.
Qed.

Lemma X1_typed_hello :
  reachable typed_hello /\
  timers (loop typed_hello) = [mkTimer 2 1500 (AutoSaveTick "Hello")] /\
  length (timers (loop typed_hello)) <= 1.
Proof.
  assert (Hr : reachable typed_hello).
  { exists (fresh_env (holding "abc")),
           [LoadSettles; Tick 1000; Change "Hello"; Tick 100]. reflexivity. }
  split; [exact Hr|]. split; [reflexivity|].
  exact (proj1 (X1_one_timer_saving_what_is_shown typed_hello Hr)).
Defined.

(** X2.  However long the time that passes at once, it sends at most one
    command, and that command is a save of the content on screen at that
    moment, stamped with a time within the interval: a stale closure never
    writes an outdated note. *)
Theorem X2_tick_sends_at_most_the_shown_content (w : World) (dt : nat) :
  reachable w ->
  ipc (env (step (Tick dt) w)) = ipc (env w) \/
  exists d, now (env w) <= d <= now (env w) + dt /\
            ipc (env (step (Tick dt) w)) =
              (d, save_note (noteContent (app w))) :: ipc (env w).
Proof.
  intros Hr. destruct (reachable_queue_ok w Hr) as [H | [d [Hd H]]].
  - left. unfold step. rewrite (advance_empty _ run dt _ _ H). reflexivity.
  - destruct (Nat.le_gt_cases d (now (env w) + dt)) as [Hle|Hgt].
    + right. exists d. split; [lia|].
      rewrite (tick_fires_timer w _ d _ dt H Hle). cbn [env set_now ipc].
      rewrite saveNote_ipc. reflexivity.
    + left. unfold step.
      rewrite (advance_single_waits _ run dt (env w) (loop w) _ H) by exact Hgt.
      reflexivity.
Qed.

Lemma X2_typed_hello :
  reachable typed_hello /\
  exists d, ipc (env (step (Tick 5000) typed_hello)) =
              (d, save_note "Hello") :: ipc (env typed_hello).
Proof.
  assert (Hr : reachable typed_hello).
  { exists (fresh_env (holding "abc")),
           [LoadSettles; Tick 1000; Change "Hello"; Tick 100]. reflexivity. }
  split; [exact Hr|].
  destruct (X2_tick_sends_at_most_the_shown_content typed_hello 5000 Hr)
    as [H | [d [_ H]]]; [discriminate H|].
  exists d. exact H.
Defined.

Lemma chrome_frame (ev : Event) (w : World) :
  is_chrome ev = true ->
  noteContent (app (step ev w)) = noteContent (app w) /\
  isLoading (app (step ev w)) = isLoading (app w) /\
  timeoutId (app (step ev w)) = timeoutId (app w) /\
  loop (step ev w) = loop w /\
  load_reply (step ev w) = load_reply w /\
  store (env (step ev w)) = store (env w) /\
  now (env (step ev w)) = now (env w) /\
  saves (ipc (env (step ev w))) = saves (ipc (env w)) /\
  loads (ipc (env (step ev w))) = loads (ipc (env w)).
Proof.
  intros Hc. destruct ev; try discriminate Hc; unfold step.
  - destruct (isLoading (app w)) eqn:El; repeat split; cbn; auto.
  - destruct (isLoading (app w)) eqn:El; [repeat split; cbn; auto|].
    destruct (showSettings (app w)); repeat split; cbn; auto.
  - destruct (isLoading (app w)) eqn:El; [repeat split; cbn; auto|].
    destruct (showSettings (app w)); [|repeat split; cbn; auto].
    unfold on_env. cbn [app loop env load_reply].
    destruct (wm_ok (env w)) eqn:H.
    + rewrite forceWindowOnTop_accepted by exact H. repeat split; cbn; auto.
    + rewrite forceWindowOnTop_refused by exact H. repeat split; cbn; auto.
  - destruct (isLoading (app w)) eqn:El; [repeat split; cbn; auto|].
    destruct (showSettings (app w)); [|repeat split; cbn; auto].
    unfold on_env. cbn [app loop env load_reply].
    destruct (wm_ok (env w)) eqn:H.
    + rewrite debugWindowInfo_answered by exact H. repeat split; cbn; auto.
    + rewrite debugWindowInfo_refused by exact H. repeat split; cbn; auto.
  - unfold on_env, handleDragStart, invoke_startDragging. cbn.
    destruct (wm_ok (env w)); repeat split.
  - repeat split.
Qed.

(** X3.  Opening or closing the settings panel, the two buttons of the
    panel, dragging the title bar and the hotkey never touch the note:
    the content on screen, the loading flag, the timer queue, the pending
    load, the store and the clock are left as they were, and neither
    [save_note] nor [load_note] is invoked. *)
Theorem X3_chrome_never_touches_the_note (ev : Event) (w : World) :
  is_chrome ev = true ->
  noteContent (app (step ev w)) = noteContent (app w) /\
  isLoading (app (step ev w)) = isLoading (app w) /\
  timeoutId (app (step ev w)) = timeoutId (app w) /\
  loop (step ev w) = loop w /\
  load_reply (step ev w) = load_reply w /\
  store (env (step ev w)) = store (env w) /\
  now (env (step ev w)) = now (env w) /\
  saves (ipc (env (step ev w))) = saves (ipc (env w)) /\
  loads (ipc (env (step ev w))) = loads (ipc (env w)).
Proof. exact (chrome_frame ev w). Qed.

Lemma X3_force_on_top_while_typing :
  is_chrome ClickForceOnTop = true /\
  loop (step ClickForceOnTop (step OpenSettings typed_hello)) = loop typed_hello /\
  ipc (env (step ClickForceOnTop (step OpenSettings typed_hello))) =
    (1100, force_window_on_top) :: ipc (env typed_hello).
Proof.
  split; [reflexivity|]. split; [|reflexivity].
  destruct (X3_chrome_never_touches_the_note
              ClickForceOnTop (step OpenSettings typed_hello) eq_refl)
    as [_ [_ [_ [H _]]]].
  rewrite H. reflexivity.
Defined.

End AutoSaveSessions.

Section AutoSaveLoading.

Import AutoSave.

Lemma setNoteContent_frame (v : string) (w : World) :
  isLoading (app (setNoteContent v w)) = isLoading (app w) /\
  load_reply (setNoteContent v w) = load_reply w /\
  env (setNoteContent v w) = env w.
Proof.
  unfold setNoteContent.
  destruct (String.eqb v (noteContent (app w))); repeat split.
Qed.

Lemma load_settles_clears (w : World) (r : Reply string) :
  load_reply w = Some r ->
  isLoading (app (step LoadSettles w)) = false /\
  load_reply (step LoadSettles w) = None /\
  ipc (env (step LoadSettles w)) = ipc (env w) /\
  store (env (step LoadSettles w)) = store (env w) /\
  now (env (step LoadSettles w)) = now (env w).
Proof.
  intros H. destruct r as [c|err].
  - rewrite (load_settles_resolved w c H).
    destruct (setNoteContent_frame c (mkWorld (app w) (loop w) (env w) None))
      as [_ [F2 F3]].
    cbn [setIsLoading on_app app isLoading load_reply env].
    rewrite F2, F3. repeat split.
  - rewrite (load_settles_rejected w err H). repeat split.
Qed.

Lemma other_events_keep_loading (ev : Event) (w : World) :
  ev <> LoadSettles ->
  isLoading (app (step ev w)) = isLoading (app w) /\
  load_reply (step ev w) = load_reply w.
Proof.
  intros Hne. destruct ev; try congruence.
  - destruct (tick_keeps_load_reply dt w) as [H1 [H2 _]]. rewrite H1, H2. split; reflexivity.
  - unfold step. destruct (isLoading (app w)) eqn:El; [split; [exact El | reflexivity]|].
    destruct (setNoteContent_frame v w) as [F1 [F2 _]]. rewrite F1, F2.
    split; [exact El | reflexivity].
  - destruct (chrome_frame OpenSettings w eq_refl) as [_ [H1 [_ [_ [H2 _]]]]]. split; assumption.
  - destruct (chrome_frame CloseSettings w eq_refl) as [_ [H1 [_ [_ [H2 _]]]]]. split; assumption.
  - destruct (chrome_frame ClickForceOnTop w eq_refl) as [_ [H1 [_ [_ [H2 _]]]]]. split; assumption.
  - destruct (chrome_frame ClickDebugInfo w eq_refl) as [_ [H1 [_ [_ [H2 _]]]]]. split; assumption.
  - destruct (chrome_frame DragStart w eq_refl) as [_ [H1 [_ [_ [H2 _]]]]]. split; assumption.
  - destruct (chrome_frame Hotkey w eq_refl) as [_ [H1 [_ [_ [H2 _]]]]]. split; assumption.
  - split; reflexivity.
  - split; reflexivity.
Qed.

Lemma loading_iff_pending_step (ev : Event) (w : World) :
  (isLoading (app w) = true <-> load_reply w <> None) ->
  (isLoading (app (step ev w)) = true <-> load_reply (step ev w) <> None).
Proof.
  intros I. destruct ev;
    try (match goal with
         | |- context [step ?ev w] =>
             destruct (other_events_keep_loading ev w ltac:(discriminate)) as [H1 H2];
             rewrite H1, H2; exact I
         end).
  destruct (load_reply w) as [r|] eqn:Hr.
  - destruct (load_settles_clears w r Hr) as [H1 [H2 _]]. rewrite H1, H2.
    split; [discriminate | congruence].
  - unfold step. rewrite Hr. cbn [fst]. rewrite Hr. exact I.
Qed.

(** X4.  The loading view is shown exactly while the promise of
    [load_note] is pending: in every world of a session [isLoading] holds
    if and only if the load has not settled yet.  The [finally] of
    [loadNote] clears it whether the load resolved or was rejected, and no
    other event sets it again. *)
Theorem X4_loading_exactly_while_load_pending (w : World) :
  reachable w ->
  (isLoading (app w) = true <-> load_reply w <> None) /\
  forall ev, isLoading (app w) = false -> isLoading (app (step ev w)) = false.
Proof.
  intros [e [evs ->]].
  assert (I : forall w0, (isLoading (app w0) = true <-> load_reply w0 <> None) ->
                         (isLoading (app (run_events evs w0)) = true <->
                          load_reply (run_events evs w0) <> None)).
  { induction evs as [|ev evs IH]; intros w0 H0; [exact H0|].
    apply IH, loading_iff_pending_step, H0. }
  assert (J : isLoading (app (run_events evs (mount e))) = true <->
              load_reply (run_events evs (mount e)) <> None).
  { apply I. split; [discriminate | reflexivity]. }
  split; [exact J|].
  intros ev Hf.
  destruct ev;
    try (match goal with
         | |- context [step ?ev _] =>
             destruct (other_events_keep_loading ev (run_events evs (mount e))
                         ltac:(discriminate)) as [H1 _]; rewrite H1; exact Hf
         end).
  destruct (load_reply (run_events evs (mount e))) as [r|] eqn:Hr.
  - apply (load_settles_clears _ r Hr).
  - unfold step. rewrite Hr. exact Hf.
Qed.

Lemma X4_unreadable_medium :
  reachable (run_events [Tick 20; LoadSettles]
               (mount (fresh_env (NoteStore.mk (Some "abc") false)))) /\
  isLoading (app (run_events [Tick 20; LoadSettles; Change "x"]
                    (mount (fresh_env (NoteStore.mk (Some "abc") false))))) = false.
Proof.
  assert (Hr : reachable (run_events [Tick 20; LoadSettles]
                            (mount (fresh_env (NoteStore.mk (Some "abc") false))))).
  { exists (fresh_env (NoteStore.mk (Some "abc") false)), [Tick 20; LoadSettles].
    reflexivity. }
  split; [exact Hr|].
  apply (proj2 (X4_loading_exactly_while_load_pending _ Hr) (Change "x")).
  reflexivity.
Defined.

End AutoSaveLoading.

Section AutoSaveDurability.

Import AutoSave.

Lemma fire_keeps_loads (ts : list (Timer Closure)) :
  forall e, loads (ipc (fold_left (fire run) ts e)) = loads (ipc e).
Proof.
  induction ts as [|t ts IH]; intros e; simpl; [reflexivity|].
  rewrite IH. unfold fire. destruct (cb t) as [c]. simpl.
  rewrite saveNote_ipc. reflexivity.
Qed.

Lemma loads_step (ev : Event) (w : World) :
  loads (ipc (env (step ev w))) = loads (ipc (env w)).
Proof.
  destruct ev;
    try (match goal with
         | |- context [step ?ev w] => apply (chrome_frame ev w eq_refl)
         end).
  - unfold step, advance. cbn [env set_now ipc]. apply fire_keeps_loads.
  - destruct (load_reply w) as [r|] eqn:Hr.
    + destruct (load_settles_clears w r Hr) as [_ [_ [H _]]]. rewrite H. reflexivity.
    + unfold step. rewrite Hr. reflexivity.
  - unfold step. destruct (isLoading (app w)); [reflexivity|].
    destruct (setNoteContent_frame v w) as [_ [_ H]]. rewrite H. reflexivity.
  - reflexivity.
  - reflexivity.
Qed.

(** X5.  The note is loaded once per session: whatever happens after the
    mount, [load_note] is invoked exactly once, at the time of the mount.
    Nothing reloads the note, neither an edit nor a failure. *)
Theorem X5_load_note_invoked_once_per_session (e : Env) (evs : list Event) :
  loads (ipc (env (run_events evs (mount e)))) = now e :: loads (ipc e).
Proof.
  assert (H : forall w, loads (ipc (env (run_events evs w))) = loads (ipc (env w))).
  { induction evs as [|ev evs IH]; intros w; [reflexivity|].
    simpl. rewrite IH. apply loads_step. }
  rewrite H. reflexivity.
Qed.

Lemma setNoteContent_leaves_queue_empty (v : string) (w : World) :
  timers (loop (setNoteContent v w)) = [] -> setNoteContent v w = w.
Proof.
  unfold setNoteContent.
  destruct (String.eqb v (noteContent (app w))); [reflexivity|].
  unfold autosave_effect, autosave_cleanup, setTimeout. simpl. intros H.
  apply app_eq_nil in H. destruct H as [_ H]. discriminate H.
Qed.

Lemma settled_means_stored_step (ev : Event) (w : World) :
  keeps_medium ev = true ->
  settled_means_stored w -> settled_means_stored (step ev w).
Proof.
  intros Hk [Hm [Hq Hs]].
  split; [|split; [apply step_queue_ok, Hq|]].
  - destruct ev;
      try (match goal with
           | |- context [step ?ev w] =>
               rewrite (proj1 (proj2 (proj2 (proj2 (proj2 (proj2
                          (chrome_frame ev w eq_refl)))))));
               exact Hm
           end).
    + destruct Hq as [H | [d [Hd H]]].
      * unfold step. rewrite (advance_empty _ run dt _ _ H). exact Hm.
      * destruct (Nat.le_gt_cases d (now (env w) + dt)) as [Hle|Hgt].
        -- rewrite (tick_fires_timer w _ d _ dt H Hle). cbn [env set_now store].
           rewrite saveNote_ok by exact Hm. reflexivity.
        -- unfold step.
           rewrite (advance_single_waits _ run dt (env w) (loop w) _ H) by exact Hgt.
           exact Hm.
    + destruct (load_reply w) as [r|] eqn:Hr.
      * destruct (load_settles_clears w r Hr) as [_ [_ [_ [H _]]]]. rewrite H. exact Hm.
      * unfold step. rewrite Hr. exact Hm.
    + unfold step. destruct (isLoading (app w)); [exact Hm|].
      destruct (setNoteContent_frame v w) as [_ [_ H]]. rewrite H. exact Hm.
    + simpl in Hk. subst ok. reflexivity.
    + exact Hm.
  - destruct ev;
      try (match goal with
           | |- context [step ?ev w] =>
               destruct (chrome_frame ev w eq_refl)
                 as [C1 [_ [_ [C2 [_ [C3 _]]]]]];
               rewrite C1, C2, C3; exact Hs
           end).
    + destruct Hq as [H | [d [Hd H]]].
      * unfold step. rewrite (advance_empty _ run dt _ _ H). intros _. exact (Hs H).
      * destruct (Nat.le_gt_cases d (now (env w) + dt)) as [Hle|Hgt].
        -- rewrite (tick_fires_timer w _ d _ dt H Hle). cbn [env set_now store app].
           rewrite saveNote_ok by exact Hm. reflexivity.
        -- unfold step.
           rewrite (advance_single_waits _ run dt (env w) (loop w) _ H) by exact Hgt.
           discriminate.
    + destruct (load_reply w) as [r|] eqn:Hr; [|unfold step; rewrite Hr; exact Hs].
      destruct r as [c|err].
      * rewrite (load_settles_resolved w c Hr).
        cbn [setIsLoading on_app loop env app noteContent]. intros H.
        pose proof (setNoteContent_leaves_queue_empty _ _ H) as E.
        rewrite E in H |- *. exact (Hs H).
      * rewrite (load_settles_rejected w err Hr). exact Hs.
    + unfold step. destruct (isLoading (app w)); [exact Hs|]. intros H.
      pose proof (setNoteContent_leaves_queue_empty _ _ H) as E.
      rewrite E in H |- *. exact (Hs H).
    + exact Hs.
    + exact Hs.
Qed.

(** X6.  As long as the storage medium stays available, the note is
    durable whenever nothing is queued: in every world of such a session
    with an empty timer queue, the store holds exactly the content on
    screen. *)
Theorem X6_nothing_queued_means_stored (e : Env) (evs : list Event) :
  NoteStore.medium_ok (store e) = true ->
  forallb keeps_medium evs = true ->
  timers (loop (run_events evs (mount e))) = [] ->
  NoteStore.slot (store (env (run_events evs (mount e)))) =
    Some (noteContent (app (run_events evs (mount e)))).
Proof.
  intros Hm Hk.
  assert (H : forall w, settled_means_stored w ->
                        settled_means_stored (run_events evs w)).
  { induction evs as [|ev evs IH]; intros w Hw; [exact Hw|].
    simpl in Hk. apply andb_prop in Hk. destruct Hk as [Hk1 Hk2].
    simpl. apply (IH Hk2). apply settled_means_stored_step; assumption. }
  apply H. split; [exact Hm|]. split; [apply mount_queue_ok|]. discriminate.
Qed.

Lemma X6_after_typing_hello :
  NoteStore.medium_ok (store (fresh_env (holding "abc"))) = true /\
  NoteStore.slot
    (store (env (run_events [LoadSettles; Tick 1000; Change "Hello"; Tick 500]
                   (mount (fresh_env (holding "abc")))))) = Some "Hello".
Proof.
  split; [reflexivity|].
  apply (X6_nothing_queued_means_stored (fresh_env (holding "abc"))
           [LoadSettles; Tick 1000; Change "Hello"; Tick 500]
           eq_refl eq_refl eq_refl).
Defined.

End AutoSaveDurability.

Section AutoSaveSpacedEdits.

Import AutoSave.

(** X7.  The debounce is not a rate limiter that drops writes: two edits
    at least 500 ms apart are both saved, in order, each 500 ms after it
    was made. *)
Theorem X7_spaced_edits_are_each_saved
        (w : World) (v1 v2 : string) (g q : nat) :
  queue_ok w ->
  isLoading (app w) = false ->
  v1 <> noteContent (app w) ->
  v2 <> v1 ->
  D <= g -> D <= q ->
  ipc (env (run_events [Change v1; Tick g; Change v2; Tick q] w)) =
    (now (env w) + g + D, save_note v2)
      :: (now (env w) + D, save_note v1) :: ipc (env w).
Proof.
  intros Hq Hl Hv1 Hv2 Hg Hq'. cbn [run_events fold_left].
  destruct (edit_then_quiet w v1 g Hq Hl Hv1 Hg) as [E1 [E2 _]].
  set (wa := step (Tick g) (step (Change v1) w)) in *.
  assert (Hqa : queue_ok wa) by (apply step_queue_ok, step_queue_ok, Hq).
  assert (Hla : isLoading (app wa) = false).
  { unfold wa.
    rewrite (proj1 (other_events_keep_loading (Tick g) _ ltac:(discriminate))).
    rewrite (proj1 (other_events_keep_loading (Change v1) w ltac:(discriminate))).
    exact Hl. }
  assert (Hna : now (env wa) = now (env w) + g).
  { unfold wa. destruct (tick_keeps_load_reply g (step (Change v1) w)) as [_ [_ H]].
    rewrite H. destruct (change_arms w v1 Hq Hl Hv1) as [_ [He _]]. rewrite He.
    reflexivity. }
  assert (Hva : v2 <> noteContent (app wa)) by (rewrite E2; exact Hv2).
  destruct (edit_then_quiet wa v2 q Hqa Hla Hva Hq') as [E3 _].
  rewrite E3, E1, Hna. reflexivity.
Qed.

Lemma X7_two_spaced_edits :
  ipc (env (run_events [Change "one"; Tick 500; Change "two"; Tick 700] idle)) =
    [(2000, save_note "two"); (1500, save_note "one");
     (500, save_note "abc"); (0, load_note)].
Proof.
  assert (Hq : queue_ok idle) by (left; reflexivity).
  apply (X7_spaced_edits_are_each_saved idle "one" "two" 500 700 Hq eq_refl).
  - discriminate.
  - discriminate.
  - unfold D. lia.
  - unfold D. lia.
Defined.

(** X8.  A load that settles within 500 ms of the mount cancels the save
    of the empty string queued at mount: with a non-empty stored note,
    nothing is written before the loaded content itself is saved back
    500 ms after the load settled, and the store holds the same note
    throughout. *)
Theorem X8_fast_load_cancels_the_empty_save
        (e : Env) (c : string) (dt q : nat) :
  store e = holding c ->
  c <> "" ->
  dt < D ->
  let w := run_events [Tick dt; LoadSettles; Tick q] (mount e) in
  (q < D ->
   ipc (env w) = (now e, load_note) :: ipc e /\ store (env w) = holding c) /\
  (D <= q ->
   ipc (env w) = (now e + dt + D, save_note c) :: (now e, load_note) :: ipc e /\
   store (env w) = holding c).
Proof.
  intros Hs Hc Hdt w. subst w. cbn [run_events fold_left].
  assert (Hw1 : step (Tick dt) (mount e) =
                mkWorld (app (mount e)) (loop (mount e))
                        (set_now (now e + dt) (env (mount e))) (load_reply (mount e))).
  { unfold step.
    rewrite (advance_single_waits _ run dt (env (mount e)) (loop (mount e))
               (mkTimer 0 (now e + D) (AutoSaveTick "")) eq_refl)
      by (cbn; lia).
    reflexivity. }
  rewrite Hw1. set (w1 := mkWorld _ _ _ _).
  assert (Hr : load_reply w1 = Some (Resolved c)).
  { cbn. unfold NoteStore.load. rewrite Hs. reflexivity. }
  rewrite (load_settles_resolved w1 c Hr).
  set (w10 := mkWorld (app w1) (loop w1) (env w1) None).
  assert (Hq0 : queue_ok w10).
  { right. exists (now e + D). split; [cbn; lia | reflexivity]. }
  assert (Hne : c <> noteContent (app w10)) by exact Hc.
  destruct (setNoteContent_arms w10 c Hq0 Hne) as [Ht [Hcn [Hl [He _]]]].
  set (w2 := setIsLoading false (setNoteContent c w10)).
  assert (Ha : armed w2 (now e + dt) c).
  { unfold armed, w2, setIsLoading, on_app. cbn [app loop env timeoutId noteContent isLoading].
    rewrite Ht, Hcn, He. cbn. unfold D. repeat split; lia. }
  assert (Hen : env w2 = set_now (now e + dt) (record_call load_note e)).
  { unfold w2, setIsLoading, on_app. cbn [env]. rewrite He. reflexivity. }
  clearbody w2. split; intros Hcmp.
  - destruct (tick_while_armed w2 _ _ q Ha) as [_ E]; [rewrite Hen; cbn; lia|].
    rewrite E, Hen. cbn. split; [reflexivity | exact Hs].
  - rewrite (tick_fires_armed w2 _ _ q Ha) by (rewrite Hen; cbn; lia).
    cbn [env set_now ipc store]. rewrite Hen.
    rewrite saveNote_ok by (cbn; rewrite Hs; reflexivity).
    cbn. split; reflexivity.
Qed.

Lemma X8_load_after_20ms :
  store (fresh_env (holding "abc")) = holding "abc" /\
  ipc (env (run_events [Tick 20; LoadSettles; Tick 499]
              (mount (fresh_env (holding "abc"))))) = [(0, load_note)] /\
  ipc (env (run_events [Tick 20; LoadSettles; Tick 500]
              (mount (fresh_env (holding "abc"))))) =
    [(520, save_note "abc"); (0, load_note)].
Proof.
  split; [reflexivity|]. split.
  - apply (X8_fast_load_cancels_the_empty_save
             (fresh_env (holding "abc")) "abc" 20 499 eq_refl);
      [discriminate | unfold D; lia | unfold D; lia].
  - apply (X8_fast_load_cancels_the_empty_save
             (fresh_env (holding "abc")) "abc" 20 500 eq_refl);
      [discriminate | unfold D; lia | unfold D; lia].
Defined.

End AutoSaveSpacedEdits.

Section AutoSaveNoRetry.

Import AutoSave.

Lemma quiet_step (ev : Event) (w : World) :
  changes_content ev = false ->
  timers (loop w) = [] ->
  timers (loop (step ev w)) = [] /\
  saves (ipc (env (step ev w))) = saves (ipc (env w)) /\
  NoteStore.slot (store (env (step ev w))) = NoteStore.slot (store (env w)) /\
  noteContent (app (step ev w)) = noteContent (app w).
Proof.
  intros Hc Ht. destruct ev; try discriminate Hc;
    try (match goal with
         | |- context [step ?ev w] =>
             destruct (chrome_frame ev w eq_refl)
               as [C1 [_ [_ [C2 [_ [C3 [_ [C4 _]]]]]]]];
             rewrite C1, C2, C3, C4; repeat split; exact Ht
         end).
  - unfold step. rewrite (advance_empty _ run dt _ _ Ht). repeat split.
  - repeat split. exact Ht.
  - repeat split. exact Ht.
Qed.

(** X9.  There is no retry and no periodic save: once the timer queue is
    empty, nothing but an edit or the load settling leads to a save.  Time
    passing, the settings panel, the window buttons, the hotkey, and the
    medium coming back or going away send no [save_note] and leave the
    stored note and the content on screen as they are; so a note whose
    save failed stays unsaved until the next edit. *)
Theorem X9_no_save_without_a_change_of_content (w : World) (evs : list Event) :
  timers (loop w) = [] ->
  forallb (fun ev => negb (changes_content ev)) evs = true ->
  timers (loop (run_events evs w)) = [] /\
  saves (ipc (env (run_events evs w))) = saves (ipc (env w)) /\
  NoteStore.slot (store (env (run_events evs w))) = NoteStore.slot (store (env w)) /\
  noteContent (app (run_events evs w)) = noteContent (app w).
Proof.
  revert w. induction evs as [|ev evs IH]; intros w Ht Hk.
  - repeat split. exact Ht.
  - simpl in Hk. apply andb_prop in Hk. destruct Hk as [Hk1 Hk2].
    apply negb_true_iff in Hk1.
    destruct (quiet_step ev w Hk1 Ht) as [Q1 [Q2 [Q3 Q4]]].
    destruct (IH (step ev w) Q1 Hk2) as [I1 [I2 [I3 I4]]].
    simpl. rewrite I2, I3, I4, Q2, Q3, Q4. repeat split. exact I1.
Qed.

Lemma X9_failed_save_is_never_retried :
  timers (loop (run_events [Medium false; Tick 400] typed_hello)) = [] /\
  saves (ipc (env (run_events [Medium true; Tick 4000; OpenSettings; Tick 4000]
                     (run_events [Medium false; Tick 400] typed_hello)))) =
    saves (ipc (env (run_events [Medium false; Tick 400] typed_hello))) /\
  NoteStore.slot
    (store (env (run_events [Medium true; Tick 4000; OpenSettings; Tick 4000]
                   (run_events [Medium false; Tick 400] typed_hello)))) = Some "abc".
Proof.
  destruct (X9_no_save_without_a_change_of_content
              (run_events [Medium false; Tick 400] typed_hello)
              [Medium true; Tick 4000; OpenSettings; Tick 4000]
              eq_refl eq_refl) as [_ [H1 [H2 _]]].
  split; [reflexivity|]. split; [exact H1|]. rewrite H2. reflexivity.
Defined.

End AutoSaveNoRetry.

(** ** The debounce revision *)

Section DebounceSessions.

Import Debounce.

Lemma replace_newlines_no_LF (s : string) :
  has_LF (replace_newlines s) = false.
Proof.
  induction s as [|c s IH]; [reflexivity|].
  simpl. destruct (Ascii.eqb c "010"%char) eqn:E.
  - simpl. exact IH.
  - simpl. rewrite E. exact IH.
Qed.

Lemma replace_newlines_fixed (s : string) :
  has_LF s = false -> replace_newlines s = s.
Proof.
  induction s as [|c s IH]; [reflexivity|].
  simpl. destruct (Ascii.eqb c "010"%char); [discriminate|].
  simpl. intros H. rewrite (IH H). reflexivity.
Qed.

Lemma replace_newlines_app (a b : string) :
  replace_newlines (a ++ b) = (replace_newlines a ++ replace_newlines b)%string.
Proof.
  induction a as [|c a IH]; [reflexivity|].
  simpl. destruct (Ascii.eqb c "010"%char); simpl; rewrite IH; reflexivity.
Qed.

Lemma replace_newlines_length (s : string) :
  String.length (replace_newlines s) = String.length s + 3 * count_LF s.
Proof.
  induction s as [|c s IH]; [reflexivity|].
  simpl. destruct (Ascii.eqb c "010"%char); simpl; rewrite IH; lia.
Qed.

(** X10.  [content.replace(/\n/g, '<br>')] removes every line feed: the
    result never holds one; a content without line feed is returned as it
    is; the replacement works piecewise on a concatenation; and each line
    feed makes the text three characters longer. *)
Theorem X10_replace_newlines :
  (forall s, has_LF (replace_newlines s) = false) /\
  (forall s, has_LF s = false -> replace_newlines s = s) /\
  (forall a b, replace_newlines (a ++ b) =
               (replace_newlines a ++ replace_newlines b)%string) /\
  (forall s, String.length (replace_newlines s) =
             String.length s + 3 * count_LF s).
Proof.
  split; [exact replace_newlines_no_LF|].
  split; [exact replace_newlines_fixed|].
  split; [exact replace_newlines_app | exact replace_newlines_length].
Qed.

Lemma X10_two_lines :
  has_LF "milk" = false /\
  replace_newlines "milk" = "milk" /\
  replace_newlines ("milk" ++ LF ++ "eggs") = "milk<br>eggs".
Proof.
  destruct X10_replace_newlines as [_ [H _]].
  split; [reflexivity|]. split; [apply H; reflexivity | reflexivity].
Defined.

Lemma debounce_tick_on_mount (b : bool) (e : Env) (dt : nat) :
  step (Tick dt) (mount b e) =
    mkWorld true None (if b then Some "" else None) (mkLoop 0 [])
            (set_now (now e + dt) (record_call load_note e))
            (Some (NoteStore.load (store e))).
Proof. reflexivity. Qed.



(** X12.  When the load is rejected, [loadNote] logs the failure and
    leaves the loading view; the editor keeps its initial content, no
    focus is queued (the timer is set inside the [try], after the
    [await]), and [loadNote] completes normally. *)
Theorem X12_loadNote_rejected (b : bool) (e : Env) (dt : nat) :
  NoteStore.medium_ok (store e) = false ->
  let w := run_events [Tick dt; LoadSettles] (mount b e) in
  isLoading w = false /\
  editor w = (if b then Some "" else None) /\
  timers (loop w) = [] /\
  console (env w) =
    console_error "Failed to load note:" StorageUnavailable :: console e /\
  ipc (env w) = (now e, load_note) :: ipc e /\
  forall w0, snd (loadNote_resume (Rejected StorageUnavailable) w0) = Resolved tt.
Proof.
  intros Hm w. subst w. cbn [run_events fold_left].
  rewrite debounce_tick_on_mount.
  unfold NoteStore.load. rewrite Hm. repeat split.
Qed.

Lemma X12_unreadable_medium :
  NoteStore.medium_ok (NoteStore.mk (Some "abc") false) = false /\
  timers (loop (run_events [Tick 20; LoadSettles]
                  (mount true (fresh_env (NoteStore.mk (Some "abc") false))))) = [] /\
  isLoading (run_events [Tick 20; LoadSettles]
               (mount true (fresh_env (NoteStore.mk (Some "abc") false)))) = false.
Proof.
  destruct (X12_loadNote_rejected true (fresh_env (NoteStore.mk (Some "abc") false))
              20 eq_refl) as [H1 [_ [H2 _]]].
  split; [reflexivity|]. split; [exact H2 | exact H1].
Defined.

End DebounceSessions.

Section DebounceInvariants.

Import Debounce.









End DebounceInvariants.

(** ** The diagnostic button *)

Section Diagnostics.

Import AutoSave.

(** X16.  [debugWindowInfo] writes exactly one console line per call and
    shows the alert only when the command succeeded: on success the
    report is logged and shown in the alert, on failure the error is
    logged and no alert appears. *)
Theorem X16_debugWindowInfo_reports (e : Env) :
  length (console (fst (debugWindowInfo e))) = S (length (console e)) /\
  (wm_ok e = true ->
   console (fst (debugWindowInfo e)) =
     console_log ("Window Debug Info:" ++ LF)%string [wm_info e] :: console e /\
   alerts (fst (debugWindowInfo e)) =
     ("Debug info logged to console:" ++ LF ++ LF ++ wm_info e)%string :: alerts e) /\
  (wm_ok e = false ->
   console (fst (debugWindowInfo e)) =
     console_error "Failed to get debug info:" WindowManagerError :: console e /\
   alerts (fst (debugWindowInfo e)) = alerts e).
Proof.
  destruct (wm_ok e) eqn:H.
  - rewrite debugWindowInfo_answered by exact H.
    split; [reflexivity|]. split; [intros _; split; reflexivity | discriminate].
  - rewrite debugWindowInfo_refused by exact H.
    split; [reflexivity|]. split; [discriminate | intros _; split; reflexivity].
Qed.

Lemma X16_window_manager_refuses :
  wm_ok (env (step (WindowManager false "") idle)) = false /\
  alerts (fst (debugWindowInfo (env (step (WindowManager false "") idle)))) = [] /\
  alerts (fst (debugWindowInfo (env idle))) =
    [("Debug info logged to console:" ++ LF ++ LF ++ "level, frame, screen")%string].
Proof.
  split; [reflexivity|]. split.
  - apply (proj2 (proj2 (X16_debugWindowInfo_reports
                           (env (step (WindowManager false "") idle)))) eq_refl).
  - apply (proj1 (proj2 (X16_debugWindowInfo_reports (env idle))) eq_refl).
Defined.

End Diagnostics.

(** ** [debounce] for any delay *)

Section DebounceAnyDelay.

Import Debounce.




End DebounceAnyDelay.

(** ** The force-on-top button *)

Section ForceOnTop.

Import AutoSave.

(** X18.  [forceWindowOnTop] writes exactly one console line per call:
    "Forced window on top" when the command succeeded, the error when it
    was rejected, never both; and it never shows an alert. *)
Theorem X18_forceWindowOnTop_reports (e : Env) :
  alerts (fst (forceWindowOnTop e)) = alerts e /\
  ipc (fst (forceWindowOnTop e)) = (now e, force_window_on_top) :: ipc e /\
  (wm_ok e = true ->
   console (fst (forceWindowOnTop e)) =
     console_log "Forced window on top" [] :: console e) /\
  (wm_ok e = false ->
   console (fst (forceWindowOnTop e)) =
     console_error "Failed to force window on top:" WindowManagerError :: console e).
Proof.
  destruct (wm_ok e) eqn:H.
  - rewrite forceWindowOnTop_accepted by exact H.
    repeat split; try reflexivity; discriminate.
  - rewrite forceWindowOnTop_refused by exact H.
    repeat split; try reflexivity; discriminate.
Qed.

Lemma X18_window_manager_refuses :
  wm_ok (env (step (WindowManager false "") idle)) = false /\
  console (fst (forceWindowOnTop (env (step (WindowManager false "") idle)))) =
    [console_error "Failed to force window on top:" WindowManagerError].
Proof.
  split; [reflexivity|].
  apply (proj2 (proj2 (proj2 (X18_forceWindowOnTop_reports
                                (env (step (WindowManager false "") idle))))) eq_refl).
Defined.

End ForceOnTop.
